(** * PPTXWatermarkRemover: a shallow embedding of [watermark_remover.py]

    The cleaner edits a presentation in place.  It means to delete the
    shapes whose click hyperlink points to the target domain, to strip the
    run hyperlinks that point there, and on every slide to sweep the
    pictures of the bottom-right corner when one of them carries such a
    link.

    The presentation object model belongs to the document library, not to
    the program.  It is taken here as the library has it:
    - a shape of a container is an element of its XML; [shape_id] is the
      id the element carries there, which names it for as long as the
      presentation lives;
    - enumerating [obj.shapes] builds a new proxy object for every element,
      each time: a proxy is an element together with what Python's [id]
      returns for the proxy object, an address handed out by the
      allocator (see [allocator]); removing goes by the element;
    - [prs.part] is the presentation part, which has no attribute
      [slide_masters]: reading it raises [AttributeError];
    - Python floats are IEEE binary64 numbers, that is Rocq's primitive
      floats;
    - an address and the target domain are ASCII strings, of which
      [str.lower] folds the letters A to Z; the text of a run is Unicode
      text, a list of code points, of which [str.strip] removes the white
      space of Unicode;
    - reading a click action or a hyperlink address may raise, and a
      position or the slide size may be unset: see [attr] and [read]. *)

From Stdlib Require Import ZArith NArith List ListSet String Ascii Bool Arith Lia.
From Stdlib Require Import Floats.
Import ListNotations.

Set Warnings "-register-all".

(* ================================================================== *)
(** ** Strings: the [str] methods the program uses *)

Module Str.

Local Open Scope string_scope.

(** One character of [str.lower]. *)
Definition lower_char (c : ascii) : ascii :=
  let n := nat_of_ascii c in
  if (65 <=? n)%nat && (n <=? 90)%nat then ascii_of_nat (n + 32) else c.

(** [s.lower()] *)
Fixpoint lower (s : string) : string :=
  match s with
  | EmptyString => EmptyString
  | String c s' => String (lower_char c) (lower s')
  end.

(** [t in s]: [t] occurs in [s] as a contiguous substring. *)
Fixpoint contains (t s : string) : bool :=
  prefix t s ||
  match s with
  | EmptyString => false
  | String _ s' => contains t s'
  end.

(** [s == ""] *)
Definition is_empty (s : string) : bool :=
  match s with EmptyString => true | String _ _ => false end.

(** Unicode text: the code points of a [str]. *)
Definition text : Set := list N.

(** The text of an ASCII string. *)
Definition of_ascii (s : string) : text :=
  map N_of_ascii (list_ascii_of_string s).

(** [c.isspace()]: the code points [str.strip] removes.  These are tab to
    carriage return, the separators 28 to 31, the space, next line,
    no-break space, ogham space mark, en quad to hair space, line and
    paragraph separator, narrow no-break space, medium mathematical space
    and ideographic space. *)
Definition is_space (c : N) : bool :=
  ((9 <=? c) && (c <=? 13) || (28 <=? c) && (c <=? 32)
   || (c =? 133) || (c =? 160) || (c =? 5760)
   || (8192 <=? c) && (c <=? 8202)
   || (c =? 8232) || (c =? 8233) || (c =? 8239) || (c =? 8287)
   || (c =? 12288))%N.

Fixpoint drop_spaces (l : text) : text :=
  match l with
  | c :: l' => if is_space c then drop_spaces l' else l
  | [] => []
  end.

(** [t.strip()]: white space removed at both ends. *)
Definition strip (t : text) : text :=
  rev (drop_spaces (rev (drop_spaces t))).

(** [t == ""] *)
Definition is_empty_text (t : text) : bool :=
  match t with [] => true | _ :: _ => false end.

(** The text is empty or consists of white space only. *)
Definition blank (t : text) : bool := forallb is_space t.

End Str.

(* ================================================================== *)
(** ** The presentation object model *)

(** The outcome of reading an attribute of a library object the way the
    program does, with [hasattr(obj, name)] first: the attribute is not
    there, the property raises an exception other than [AttributeError]
    (which [hasattr] lets through), or it yields a value. *)
Inductive attr (A : Type) : Type :=
| NoAttr
| AttrRaises
| Attr (a : A).
Arguments NoAttr {A}.
Arguments AttrRaises {A}.
Arguments Attr {A} a.

(** The outcome of reading a property that is there: a value, or an
    exception (the address of a hyperlink whose relationship is missing
    from the package raises [KeyError]). *)
Inductive read (A : Type) : Type :=
| Got (a : A)
| ReadRaises.
Arguments Got {A} a.
Arguments ReadRaises {A}.

Inductive MSO_SHAPE_TYPE : Set :=
| AUTO_SHAPE | FREEFORM | GROUP | LINE | PICTURE | PLACEHOLDER | TABLE | TEXT_BOX.

Definition is_picture (t : MSO_SHAPE_TYPE) : bool :=
  match t with PICTURE => true | _ => false end.

(** A hyperlink object; reading its [address] gives [None] or a string,
    or raises. *)
Record Hyperlink : Set := { address : read (option string) }.

(** [shape.click_action]; its [hyperlink] is [None] or a hyperlink. *)
Record ActionSetting : Set := { hyperlink : option Hyperlink }.

Record Run : Set := { run_text : Str.text; run_hyperlink : option Hyperlink }.
Record Paragraph : Set := { runs : list Run }.
Record TextFrame : Set := { paragraphs : list Paragraph }.

(** A shape element, as a proxy object shows it.  [left] and [top] are
    EMU offsets, [None] when the position is unset, in which case
    [float(shape.left)] raises.  [text_frame] is [None] when the object has
    no such attribute and [Some None] when the attribute is [None].
    [group_shapes] are the shapes nested in the element when it is a
    group. *)
Inductive shape : Type := Shape {
  shape_id : nat;
  shape_type : MSO_SHAPE_TYPE;
  left : option Z;
  top : option Z;
  click_action : attr (option ActionSetting);
  text_frame : option (option TextFrame);
  group_shapes : list shape
}.

(** The library's group shape: its type is [GROUP], it has no text frame,
    and its [click_action] property raises [TypeError]. *)
Definition group_shape (i : nat) (l t : option Z) (members : list shape) : shape :=
  {| shape_id := i; shape_type := GROUP; left := l; top := t;
     click_action := AttrRaises; text_frame := None;
     group_shapes := members |}.

(** A master, a layout or a slide: the live collection of its top-level
    shapes, in document order. *)
Definition shapes_of := list shape.

Record Presentation : Type := {
  slide_width : option Z;
  slide_height : option Z;
  slide_masters : list shapes_of;
  slide_layouts : list shapes_of;
  slides : list shapes_of
}.

(** [prs.part.slide_masters]: the presentation part has no such attribute
    (the masters are [prs.slide_masters]). *)
Definition part_slide_masters (prs : Presentation) : attr (list shapes_of) :=
  NoAttr.

(** [shape.text_frame = tf], the one in-place edit made to a shape. *)
Definition with_text_frame (s : shape) (tf : TextFrame) : shape :=
  {| shape_id := shape_id s; shape_type := shape_type s;
     left := left s; top := top s; click_action := click_action s;
     text_frame := Some (Some tf); group_shapes := group_shapes s |}.

(** Two proxies of the same element. *)
Definition same_id (a b : shape) : bool := (shape_id a =? shape_id b)%nat.

(** [shapes._spTree.remove(shape._element)]: the element leaves the live
    collection. *)
Definition remove_shape (live : list shape) (s : shape) : list shape :=
  filter (fun x => negb (same_id x s)) live.

(** An element edited through a proxy is seen edited in the live
    collection. *)
Definition store_shape (live : list shape) (s' : shape) : list shape :=
  map (fun x => if same_id x s' then s' else x) live.

(** [float(n)] for a Python int: the nearest binary64 number, ties to
    even; [OverflowError] when that is out of range. *)
Definition float_of_int (n : Z) : option float :=
  let f := SF2Prim (binary_normalize prec emax n 0 false) in
  if PrimFloat.is_infinity f then None else Some f.

(** [float(x)] for an attribute that is an int or [None]. *)
Definition float_of_attr (x : option Z) : option float :=
  match x with
  | Some n => float_of_int n
  | None => None
  end.

(** *** Proxy objects and their ids *)

(** The allocator of the Python run time, as far as [id] shows it:
    [alloc live t] is the address of the object created at time [t] when
    the objects at the addresses [live] are known to be alive.  The time
    is a count of the proxies built so far; every run of the program is
    the run under some allocator.  Python promises one thing of [id]: see
    [respects_liveness]. *)
Definition allocator : Set := list nat -> nat -> nat.

(** A proxy object: [id(proxy)] and the element it wraps. *)
Definition proxy : Type := nat * shape.

(** The proxy the loop variable holds once the loop is over, if any. *)
Fixpoint last_id (ps : list proxy) : list nat :=
  match ps with
  | [] => []
  | [p] => [fst p]
  | _ :: ps' => last_id ps'
  end.

(** [for x in coll.shapes] and [[... for x in coll.shapes]]: the proxies
    are built one at a time, each while the loop variable still holds the
    one before; the objects at [held] are alive throughout. *)
Fixpoint iterate (alloc : allocator) (held prev : list nat) (coll : list shape)
  (clock : nat) : list proxy :=
  match coll with
  | [] => []
  | s :: rest =>
      let i := alloc (prev ++ held) clock in
      (i, s) :: iterate alloc held [i] rest (S clock)
  end.

(** [list(coll.shapes)]: the proxies are alive together in the list. *)
Fixpoint snapshot (alloc : allocator) (held : list nat) (coll : list shape)
  (clock : nat) : list proxy :=
  match coll with
  | [] => []
  | s :: rest =>
      let i := alloc held clock in
      (i, s) :: snapshot alloc (i :: held) rest (S clock)
  end.

(* ================================================================== *)
(** ** The cleaner *)

Record PPTXWatermarkRemover : Set := {
  target_domain : string;
  corner_threshold : float;
  links_removed : nat;
  shapes_removed : nat;
  corner_images_removed : nat
}.

Definition __init__ (domain : string) (threshold : float) : PPTXWatermarkRemover :=
  {| target_domain := Str.lower domain;
     corner_threshold := threshold;
     links_removed := 0;
     shapes_removed := 0;
     corner_images_removed := 0 |}.

Definition add_links (self : PPTXWatermarkRemover) (n : nat) :=
  {| target_domain := target_domain self;
     corner_threshold := corner_threshold self;
     links_removed := links_removed self + n;
     shapes_removed := shapes_removed self;
     corner_images_removed := corner_images_removed self |}.

Definition add_shapes (self : PPTXWatermarkRemover) (n : nat) :=
  {| target_domain := target_domain self;
     corner_threshold := corner_threshold self;
     links_removed := links_removed self;
     shapes_removed := shapes_removed self + n;
     corner_images_removed := corner_images_removed self |}.

Definition add_corner_images (self : PPTXWatermarkRemover) (n : nat) :=
  {| target_domain := target_domain self;
     corner_threshold := corner_threshold self;
     links_removed := links_removed self;
     shapes_removed := shapes_removed self;
     corner_images_removed := corner_images_removed self + n |}.

(** [a and domain in a.lower()] for an address [a] that is [None] or a
    string: [None] and the empty string are both falsy. *)
Definition address_matches (domain : string) (a : option string) : bool :=
  match a with
  | Some s => negb (Str.is_empty s) && Str.contains domain (Str.lower s)
  | None => false
  end.

(** [h is not None and h.address and domain in h.address.lower()],
    also [r.hyperlink and r.hyperlink.address and ...]: the answer, or the
    exception that reading the address raises. *)
Definition hyperlink_matches (domain : string) (h : option Hyperlink) : read bool :=
  match h with
  | Some h =>
      match address h with
      | Got a => Got (address_matches domain a)
      | ReadRaises => ReadRaises
      end
  | None => Got false
  end.

(** *** [_shape_has_target_link] *)

(** How the body of a [try] ends. *)
Inductive outcome : Set :=
| ReturnsTrue
| FallsThrough
| Raised.

(** The test on the shape's own click hyperlink, inside the [try]. *)
Definition click_link_test (domain : string) (s : shape) : outcome :=
  match click_action s with
  | AttrRaises => Raised
  | NoAttr => FallsThrough
  | Attr None => FallsThrough
  | Attr (Some ca) =>
      match hyperlink_matches domain (hyperlink ca) with
      | Got true => ReturnsTrue
      | Got false => FallsThrough
      | ReadRaises => Raised
      end
  end.

(** The walk over the runs that follows in the [try]: a matching run is
    met with [pass]; a run whose address cannot be read ends the walk. *)
Fixpoint runs_scan (domain : string) (rs : list Run) : outcome :=
  match rs with
  | [] => FallsThrough
  | r :: rest =>
      match hyperlink_matches domain (run_hyperlink r) with
      | Got _ => runs_scan domain rest
      | ReadRaises => Raised
      end
  end.

Fixpoint paragraphs_scan (domain : string) (ps : list Paragraph) : outcome :=
  match ps with
  | [] => FallsThrough
  | p :: rest =>
      match runs_scan domain (runs p) with
      | Raised => Raised
      | _ => paragraphs_scan domain rest
      end
  end.

Definition text_frame_scan (domain : string) (s : shape) : outcome :=
  match text_frame s with
  | Some (Some tf) => paragraphs_scan domain (paragraphs tf)
  | _ => FallsThrough
  end.

(** The body of the [try]. *)
Definition link_test_body (domain : string) (s : shape) : outcome :=
  match click_link_test domain s with
  | ReturnsTrue => ReturnsTrue
  | Raised => Raised
  | FallsThrough => text_frame_scan domain s
  end.

(** Returns the cleaner, whose link counter the test itself increments
    when it answers [True], and the answer.  An exception in the body is
    swallowed and the answer is [False]. *)
Definition _shape_has_target_link (self : PPTXWatermarkRemover) (s : shape)
  : PPTXWatermarkRemover * bool :=
  match link_test_body (target_domain self) s with
  | ReturnsTrue => (add_links self 1, true)
  | FallsThrough => (self, false)
  | Raised => (self, false)
  end.

(** *** [_strip_text_run_links] *)

(** One turn of the inner loop: the runs that stay in the paragraph in
    place of [r], and what is added to [removed].  When reading the
    address raises, the handler goes on to the next run. *)
Definition strip_run (domain : string) (r : Run) : list Run * nat :=
  match hyperlink_matches domain (run_hyperlink r) with
  | Got true =>
      let r' := {| run_text := run_text r;
                   run_hyperlink := Some {| address := Got None |} |} in
      (if Str.is_empty_text (Str.strip (run_text r')) then [] else [r'], 1)
  | Got false => ([r], 0)
  | ReadRaises => ([r], 0)
  end.

Fixpoint strip_runs (domain : string) (rs : list Run) : list Run * nat :=
  match rs with
  | [] => ([], 0)
  | r :: rest =>
      let (kept, n) := strip_run domain r in
      let (rest', m) := strip_runs domain rest in
      (kept ++ rest', n + m)
  end.

Fixpoint strip_paragraphs (domain : string) (ps : list Paragraph)
  : list Paragraph * nat :=
  match ps with
  | [] => ([], 0)
  | p :: rest =>
      let (rs, n) := strip_runs domain (runs p) in
      let (rest', m) := strip_paragraphs domain rest in
      ({| runs := rs |} :: rest', n + m)
  end.

Definition strip_text_frame (domain : string) (tf : TextFrame) : TextFrame * nat :=
  let (ps, n) := strip_paragraphs domain (paragraphs tf) in
  ({| paragraphs := ps |}, n).

(** The shape as edited and the number of links stripped.  The callers
    guard the call with [hasattr(shape, "text_frame") and shape.text_frame
    is not None]; the other cases are never reached. *)
Definition _strip_text_run_links (self : PPTXWatermarkRemover) (s : shape)
  : shape * nat :=
  match text_frame s with
  | Some (Some tf) =>
      let (tf', removed) := strip_text_frame (target_domain self) tf in
      (with_text_frame s tf', removed)
  | _ => (s, 0)
  end.

(** *** [_slide_size] and [_is_in_corner] *)

(** [None] when a [float(...)] raises, which nothing catches. *)
Definition _slide_size (prs : Presentation) : option (float * float) :=
  match float_of_attr (slide_width prs) with
  | Some sw =>
      match float_of_attr (slide_height prs) with
      | Some sh => Some (sw, sh)
      | None => None
      end
  | None => None
  end.

Definition _is_in_corner (s : shape) (right_edge bottom_edge : float) : bool :=
  match float_of_attr (left s) with
  | Some l =>
      match float_of_attr (top s) with
      | Some t => PrimFloat.leb right_edge l && PrimFloat.leb bottom_edge t
      | None => false
      end
  | None => false
  end.

(** *** [_remove_shapes_by_id] *)

(** [id(shape) in ids_set] *)
Definition id_in (ids : list nat) (p : proxy) : bool :=
  existsb (Nat.eqb (fst p)) ids.

Fixpoint remove_loop (ids : list nat) (snap : list proxy) (live : list shape)
  (removed : nat) : list shape * nat :=
  match snap with
  | [] => (live, removed)
  | p :: rest =>
      if id_in ids p
      then remove_loop ids rest (remove_shape live (snd p)) (removed + 1)
      else remove_loop ids rest live removed
  end.

(** The live collection after the removals and the number removed.  The
    ids tested are those of the proxies that [list(slide.shapes)] builds
    here; [held] are the objects the caller keeps alive. *)
Definition _remove_shapes_by_id (alloc : allocator) (held : list nat)
  (slide : shapes_of) (ids_set : list nat) (clock : nat) : shapes_of * nat :=
  remove_loop ids_set (snapshot alloc held slide clock) slide 0.

(** *** [_process_shape_tree] *)

Definition count_links (self : PPTXWatermarkRemover) (changed : nat) :=
  if (changed =? 0)%nat then self else add_links self changed.

(** The ids of the proxies play no part here: the loop removes by
    element. *)
Fixpoint shape_tree_loop (self : PPTXWatermarkRemover)
  (snapshot live : list shape) : PPTXWatermarkRemover * list shape :=
  match snapshot with
  | [] => (self, live)
  | s :: rest =>
      let (self1, linked) := _shape_has_target_link self s in
      if linked then
        shape_tree_loop (add_shapes self1 1) rest (remove_shape live s)
      else
        match text_frame s with
        | Some (Some _) =>
            let (s', changed) := _strip_text_run_links self1 s in
            shape_tree_loop (count_links self1 changed) rest (store_shape live s')
        | _ => shape_tree_loop self1 rest live
        end
  end.

(** No step of the loop raises on this object model, so the [try] around
    it never reaches its handler. *)
Definition _process_shape_tree (self : PPTXWatermarkRemover) (obj : shapes_of)
  : PPTXWatermarkRemover * shapes_of :=
  shape_tree_loop self obj obj.

(** *** [_process_slide] *)

(** Step 1, the loop over the proxies of [slide.shapes]: the ids of the
    proxies of the corner pictures and whether one of these is linked. *)
Fixpoint corner_scan (self : PPTXWatermarkRemover) (right_edge bottom_edge : float)
  (todo : list proxy) (ids : set nat) (found : bool)
  : PPTXWatermarkRemover * set nat * bool :=
  match todo with
  | [] => (self, ids, found)
  | p :: rest =>
      if is_picture (shape_type (snd p))
         && _is_in_corner (snd p) right_edge bottom_edge then
        let (self1, linked) := _shape_has_target_link self (snd p) in
        corner_scan self1 right_edge bottom_edge rest
          (set_add Nat.eq_dec (fst p) ids) (if linked then true else found)
      else corner_scan self right_edge bottom_edge rest ids found
  end.

(** Step 1, the corner sweep.  Besides the cleaner and the slide it gives
    the proxy the loop variable [shape] still holds and the time. *)
Definition corner_sweep (alloc : allocator) (self : PPTXWatermarkRemover)
  (right_edge bottom_edge : float) (slide : shapes_of) (clock : nat)
  : PPTXWatermarkRemover * shapes_of * list nat * nat :=
  let scan := iterate alloc [] [] slide clock in
  let '(self1, ids, found) :=
    corner_scan self right_edge bottom_edge scan (empty_set nat) false in
  let clock1 := clock + List.length slide in
  if found then
    let (slide1, removed) :=
      _remove_shapes_by_id alloc (last_id scan) slide ids clock1 in
    (add_corner_images self1 removed, slide1, last_id scan,
     clock1 + List.length slide)
  else (self1, slide, last_id scan, clock1).

(** Steps 2 and 3, the loop over the snapshot.  Each turn enumerates
    [slide.shapes] again for the ids of line 84, while the proxies of the
    snapshot, at [held], are alive. *)
Fixpoint link_scan (alloc : allocator) (held : list nat)
  (self : PPTXWatermarkRemover) (todo : list proxy) (live : list shape)
  (to_remove_ids : list nat) (clock : nat)
  : PPTXWatermarkRemover * list shape * list nat * nat :=
  match todo with
  | [] => (self, live, to_remove_ids, clock)
  | p :: rest =>
      let now := map fst (iterate alloc held [] live clock) in
      let clock1 := clock + List.length live in
      if negb (existsb (Nat.eqb (fst p)) now) then
        link_scan alloc held self rest live to_remove_ids clock1
      else
        let (self1, linked) := _shape_has_target_link self (snd p) in
        if linked then
          link_scan alloc held self1 rest live (to_remove_ids ++ [fst p]) clock1
        else
          match text_frame (snd p) with
          | Some (Some _) =>
              let (s', changed) := _strip_text_run_links self1 (snd p) in
              link_scan alloc held (count_links self1 changed) rest
                (store_shape live s') to_remove_ids clock1
          | _ => link_scan alloc held self1 rest live to_remove_ids clock1
          end
  end.

(** Steps 2 and 3, the link sweep; [held] is the proxy [shape] holds
    when the snapshot is taken. *)
Definition link_sweep (alloc : allocator) (held : list nat)
  (self : PPTXWatermarkRemover) (slide : shapes_of) (clock : nat)
  : PPTXWatermarkRemover * shapes_of * nat :=
  let snap := snapshot alloc held slide clock in
  let clock1 := clock + List.length slide in
  let '(self1, live, to_remove_ids, clock2) :=
    link_scan alloc (map fst snap) self snap slide [] clock1 in
  let held1 := match last_id snap with [] => held | l => l end in
  let (slide1, removed) :=
    _remove_shapes_by_id alloc held1 live to_remove_ids clock2 in
  (add_shapes self1 removed, slide1, clock2 + List.length live).

(** [None] when the slide size raises. *)
Definition _process_slide (alloc : allocator) (self : PPTXWatermarkRemover)
  (prs : Presentation) (slide : shapes_of) (clock : nat)
  : option (PPTXWatermarkRemover * shapes_of * nat) :=
  match _slide_size prs with
  | None => None
  | Some (sw, sh) =>
      let right_edge := PrimFloat.mul sw (corner_threshold self) in
      let bottom_edge := PrimFloat.mul sh (corner_threshold self) in
      let '(self1, slide1, held, clock1) :=
        corner_sweep alloc self right_edge bottom_edge slide clock in
      Some (link_sweep alloc held self1 slide1 clock1)
  end.

(** *** [clean_pptx_from_target_domain] *)

Fixpoint process_trees (self : PPTXWatermarkRemover) (objs : list shapes_of)
  : PPTXWatermarkRemover * list shapes_of :=
  match objs with
  | [] => (self, [])
  | obj :: rest =>
      let (self1, obj') := _process_shape_tree self obj in
      let (self2, rest') := process_trees self1 rest in
      (self2, obj' :: rest')
  end.

Fixpoint process_slides (alloc : allocator) (self : PPTXWatermarkRemover)
  (prs : Presentation) (todo : list shapes_of) (clock : nat)
  : option (PPTXWatermarkRemover * list shapes_of) :=
  match todo with
  | [] => Some (self, [])
  | slide :: rest =>
      match _process_slide alloc self prs slide clock with
      | None => None
      | Some (self1, slide', clock1) =>
          match process_slides alloc self1 prs rest clock1 with
          | None => None
          | Some (self2, rest') => Some (self2, slide' :: rest')
          end
      end
  end.

(** The triple the method returns. *)
Definition counts (self : PPTXWatermarkRemover) : nat * nat * nat :=
  (shapes_removed self, links_removed self, corner_images_removed self).

(** The masters: the loop is over [prs.part.slide_masters]; when reading
    it raises, the handler prints and the masters stay as they are. *)
Definition process_masters (self : PPTXWatermarkRemover) (prs : Presentation)
  : PPTXWatermarkRemover * list shapes_of :=
  match part_slide_masters prs with
  | Attr masters => process_trees self masters
  | NoAttr | AttrRaises => (self, slide_masters prs)
  end.

(** The cleaner after the call, the presentation as saved, and the
    returned triple; [None] when an exception leaves the method: a slide
    whose size cannot be read raises, and nothing catches it. *)
Definition clean_pptx_from_target_domain (alloc : allocator)
  (self : PPTXWatermarkRemover) (prs : Presentation)
  : option (PPTXWatermarkRemover * Presentation * (nat * nat * nat)) :=
  let (self1, masters') := process_masters self prs in
  let (self2, layouts') := process_trees self1 (slide_layouts prs) in
  match process_slides alloc self2 prs (slides prs) 0 with
  | None => None
  | Some (self3, slides') =>
      Some (self3,
            {| slide_width := slide_width prs;
               slide_height := slide_height prs;
               slide_masters := masters';
               slide_layouts := layouts';
               slides := slides' |},
            counts self3)
  end.

(* ================================================================== *)
(** ** The driver, [app.py] *)

(** [remove_pptx_watermark]: a cleaner with the default configuration, one
    call of its public method, and the figures of the "Details" line the
    driver prints: shapes, links, corner pictures and their total.  The
    function returns nothing; what is given here is the presentation as
    saved and those four figures, [None] when the call raises. *)
Definition remove_pptx_watermark (alloc : allocator) (prs : Presentation)
  : option (Presentation * (nat * nat * nat * nat)) :=
  let remover := __init__ "gamma.app" 0x1.6666666666666p-1%float in
  match clean_pptx_from_target_domain alloc remover prs with
  | Some (_, prs', (shapes, links, corner)) =>
      let total_removed := shapes + links + corner in
      Some (prs', (shapes, links, corner, total_removed))
  | None => None
  end.

(* ================================================================== *)
(** ** Allocators *)

(** What Python promises of [id]: an object is not given the address of
    an object that is alive. *)
Definition respects_liveness (alloc : allocator) : Prop :=
  forall live t, ~ In (alloc live t) live.

(** An allocator that gives no address twice while the method runs:
    objects created at different times have different ids.  Python does
    not promise it: the address of an object that has been freed may be
    given again.  Where a property of a slide needs it, it is a
    hypothesis of that property. *)
Definition never_reuses (alloc : allocator) : Prop :=
  forall live live' t t', t <> t' -> alloc live t <> alloc live' t'.

(** An allocator of both kinds.  The object created at time [t] gets the
    address [2^j * (2 * t + 1)] for the first [j] that is not the address
    of a live object. *)
Fixpoint first_free (fuel : nat) (live : list nat) (c : nat) : nat :=
  match fuel with
  | 0 => c
  | S fuel' =>
      if existsb (Nat.eqb c) live
      then first_free fuel' (remove Nat.eq_dec c live) (2 * c)
      else c
  end.

Definition fresh_address : allocator :=
  fun live t => first_free (List.length live) live (2 * t + 1).

(* ================================================================== *)
(** ** Vocabulary of the properties *)

(** The address of the shape's own click hyperlink, when there is one to
    read. *)
Definition click_address (s : shape) : option string :=
  match click_action s with
  | Attr (Some ca) =>
      match hyperlink ca with
      | Some {| address := Got a |} => a
      | _ => None
      end
  | _ => None
  end.

(** The address of the run's hyperlink, when there is one to read. *)
Definition run_address (r : Run) : option string :=
  match run_hyperlink r with
  | Some {| address := Got a |} => a
  | _ => None
  end.

(** The shape's own click hyperlink points to the domain. *)
Definition linked (domain : string) (s : shape) : bool :=
  address_matches domain (click_address s).

(** The run's hyperlink points to the domain. *)
Definition run_linked (domain : string) (r : Run) : bool :=
  address_matches domain (run_address r).

(** The runs of the shape's text body, paragraph by paragraph. *)
Definition shape_runs (s : shape) : list Run :=
  match text_frame s with
  | Some (Some tf) => flat_map runs (paragraphs tf)
  | _ => []
  end.

(** What the specification says of one run: a run that points to the
    domain loses its address, and goes away when its text is empty or
    white space; any other run stays as it is. *)
Definition run_after (domain : string) (r : Run) : list Run :=
  if run_linked domain r then
    if Str.blank (run_text r) then []
    else [ {| run_text := run_text r;
              run_hyperlink := Some {| address := Got None |} |} ]
  else [r].

Definition text_frame_after (domain : string) (tf : TextFrame) : TextFrame :=
  {| paragraphs :=
       map (fun p => {| runs := flat_map (run_after domain) (runs p) |})
           (paragraphs tf) |}.

(** The shape after run stripping: only the text frame is touched. *)
Definition edited (domain : string) (s : shape) : shape :=
  match text_frame s with
  | Some (Some tf) => with_text_frame s (text_frame_after domain tf)
  | _ => s
  end.

(** The number of runs of the shape that point to the domain. *)
Definition linked_runs (domain : string) (s : shape) : nat :=
  List.length (filter (run_linked domain) (shape_runs s)).

(** A container after the pass over its top-level shapes: the linked
    shapes are gone, the others are edited. *)
Definition kept (domain : string) (l : list shape) : list shape :=
  map (edited domain) (filter (fun s => negb (linked domain s)) l).

Definition n_linked (domain : string) (l : list shape) : nat :=
  List.length (filter (linked domain) l).

Definition n_stripped (domain : string) (l : list shape) : nat :=
  list_sum (map (linked_runs domain)
                (filter (fun s => negb (linked domain s)) l)).

(** The corner region in the words of the specification: the left offset
    is at least the right edge and the top offset at least the bottom
    edge, as floats. *)
Definition in_corner_region (l t right_edge bottom_edge : float) : Prop :=
  PrimFloat.leb right_edge l = true /\ PrimFloat.leb bottom_edge t = true.

(** A picture in the corner region given by the two edges. *)
Definition corner_picture (right_edge bottom_edge : float) (s : shape) : bool :=
  is_picture (shape_type s) && _is_in_corner s right_edge bottom_edge.

(** Some corner picture is linked. *)
Definition corner_fires (domain : string) (right_edge bottom_edge : float)
  (l : list shape) : bool :=
  existsb (fun s => corner_picture right_edge bottom_edge s && linked domain s) l.

(** The number of linked corner pictures. *)
Definition n_corner_linked (domain : string) (right_edge bottom_edge : float)
  (l : list shape) : nat :=
  List.length
    (filter (fun s => corner_picture right_edge bottom_edge s && linked domain s) l).

(** The sum of [f] over the containers. *)
Definition total (f : list shape -> nat) (objs : list shapes_of) : nat :=
  list_sum (map f objs).

(** The two edges of the corner region of the presentation's slides. *)
Definition right_edge_of (threshold : float) (prs : Presentation) : float :=
  match _slide_size prs with
  | Some (sw, _) => PrimFloat.mul sw threshold
  | None => PrimFloat.zero
  end.

Definition bottom_edge_of (threshold : float) (prs : Presentation) : float :=
  match _slide_size prs with
  | Some (_, sh) => PrimFloat.mul sh threshold
  | None => PrimFloat.zero
  end.

(** The call returns: there is no slide, or the slide size can be read. *)
Definition completes (prs : Presentation) : bool :=
  match slides prs with
  | [] => true
  | _ :: _ => match _slide_size prs with Some _ => true | None => false end
  end.

(** The three counters moved by [a] links, [b] shapes and [c] corner
    pictures. *)
Definition bump (self : PPTXWatermarkRemover) (a b c : nat) : PPTXWatermarkRemover :=
  {| target_domain := target_domain self;
     corner_threshold := corner_threshold self;
     links_removed := links_removed self + a;
     shapes_removed := shapes_removed self + b;
     corner_images_removed := corner_images_removed self + c |}.

(** The cleaner with its counters back at zero, as [__init__] leaves
    them. *)
Definition fresh (self : PPTXWatermarkRemover) : PPTXWatermarkRemover :=
  {| target_domain := target_domain self;
     corner_threshold := corner_threshold self;
     links_removed := 0;
     shapes_removed := 0;
     corner_images_removed := 0 |}.

(** No shape of the list is linked and no run of its shapes is. *)
Definition link_free (domain : string) (l : list shape) : Prop :=
  forall s, In s l ->
    linked domain s = false /\
    forall r, In r (shape_runs s) -> run_linked domain r = false.

(** Distinct elements of a container have distinct ids. *)
Definition distinct_ids (l : list shape) : Prop := NoDup (map shape_id l).

Definition well_formed (prs : Presentation) : Prop :=
  Forall distinct_ids (slide_masters prs) /\
  Forall distinct_ids (slide_layouts prs) /\
  Forall distinct_ids (slides prs).

(** The top-level shapes of the presentation. *)
Definition top_level_shapes (prs : Presentation) : list shape :=
  List.concat (slide_masters prs) ++ List.concat (slide_layouts prs)
  ++ List.concat (slides prs).



(** The run stays in its paragraph when the links are stripped: it is not
    both linked and blank. *)
Definition run_stays (domain : string) (r : Run) : bool :=
  negb (run_linked domain r && Str.blank (run_text r)).

(** The number of top-level shapes of the presentation. *)
Definition n_top_level (prs : Presentation) : nat :=
  List.length (top_level_shapes prs).


(** The address [i] was given to an object created at a time from
    [from] on and before [to]. *)
Definition allocated_between (alloc : allocator) (from to i : nat) : Prop :=
  exists live t, from <= t < to /\ i = alloc live t.

(** The ids the corner scan collects: those of the proxies of the corner
    pictures. *)
Definition corner_ids (right_edge bottom_edge : float) (scan : list proxy)
  (ids : set nat) : set nat :=
  fold_left (fun acc p => set_add Nat.eq_dec (fst p) acc)
            (filter (fun p => corner_picture right_edge bottom_edge (snd p)) scan)
            ids.

(** No corner picture of any slide is linked. *)
Definition no_corner_link (domain : string) (threshold : float)
  (prs : Presentation) : Prop :=
  forall slide, In slide (slides prs) ->
    corner_fires domain (right_edge_of threshold prs)
                 (bottom_edge_of threshold prs) slide = false.

(** The presentation with its layouts cleaned, and its masters and slides
    as they are. *)
Definition cleaned (domain : string) (prs : Presentation) : Presentation :=
  {| slide_width := slide_width prs;
     slide_height := slide_height prs;
     slide_masters := slide_masters prs;
     slide_layouts := map (kept domain) (slide_layouts prs);
     slides := slides prs |}.

(** The links counted on the layouts, shape links and run links, and on
    the slides, the links of the corner pictures; the shapes counted, on
    the layouts. *)
Definition links_counted (domain : string) (threshold : float)
  (prs : Presentation) : nat :=
  total (fun o => n_linked domain o + n_stripped domain o) (slide_layouts prs)
  + total (n_corner_linked domain (right_edge_of threshold prs)
                           (bottom_edge_of threshold prs)) (slides prs).

Definition shapes_counted (domain : string) (prs : Presentation) : nat :=
  total (n_linked domain) (slide_layouts prs).

(* ================================================================== *)
(** ** A small deck to run the cleaner on *)

Module Deck.

Local Open Scope string_scope.

(** [PPTXWatermarkRemover()]: the defaults, ["gamma.app"] and [0.7]. *)
Definition remover : PPTXWatermarkRemover :=
  __init__ "gamma.app" 0x1.6666666666666p-1%float.

Definition link (a : string) : attr (option ActionSetting) :=
  Attr (Some {| hyperlink := Some {| address := Got (Some a) |} |}).

Definition no_link : attr (option ActionSetting) :=
  Attr (Some {| hyperlink := Some {| address := Got None |} |}).


Definition run (t : string) (a : option string) : Run :=
  {| run_text := Str.of_ascii t; run_hyperlink := Some {| address := Got a |} |}.

(** A linked run whose text is one no-break space, U+00A0. *)
Definition nbsp_run : Run :=
  {| run_text := [160%N];
     run_hyperlink := Some {| address := Got (Some "https://gamma.app") |} |}.


Definition body (rs : list Run) : option (option TextFrame) :=
  Some (Some {| paragraphs := [ {| runs := rs |} ] |}).

(** Two pictures in the bottom-right corner of a 4:3 slide, the second
    one linked, and a third picture, unlinked, elsewhere. *)
Definition P1 : shape :=
  Shape 1 PICTURE (Some 8000000%Z) (Some 6000000%Z) no_link None [].
Definition P2 : shape :=
  Shape 2 PICTURE (Some 8200000%Z) (Some 6200000%Z)
        (link "https://gamma.app/x") None [].
Definition photo : shape :=
  Shape 3 PICTURE (Some 1000000%Z) (Some 1000000%Z) no_link None [].

(** A shape that is a watermark link as a whole. *)
Definition badge : shape :=
  Shape 4 AUTO_SHAPE (Some 100%Z) (Some 100%Z)
        (link "https://gamma.app/present") (body []) [].

(** A text box with a labelled link, a link without label, a foreign
    link and plain text. *)
Definition caption : shape :=
  Shape 5 TEXT_BOX (Some 500000%Z) (Some 6500000%Z) no_link
        (body [ run "Made with gamma.app" (Some "https://Gamma.App/");
                run " " (Some "https://gamma.app");
                run "docs" (Some "https://example.org");
                run "plain" None ]) [].

Definition caption_cleaned : shape :=
  Shape 5 TEXT_BOX (Some 500000%Z) (Some 6500000%Z) no_link
        (body [ run "Made with gamma.app" None;
                run "docs" (Some "https://example.org");
                run "plain" None ]) [].

(** A group that holds a watermark badge. *)
Definition nested_badge : shape :=
  Shape 7 AUTO_SHAPE (Some 200%Z) (Some 200%Z)
        (link "https://gamma.app/nested") None [].
Definition group : shape :=
  group_shape 6 (Some 0%Z) (Some 0%Z) [nested_badge].

(** A picture whose position is unset. *)
Definition floating : shape :=
  Shape 8 PICTURE None (Some 6500000%Z) no_link None [].


Definition deck : Presentation :=
  {| slide_width := Some 9144000%Z;
     slide_height := Some 6858000%Z;
     slide_masters := [ [badge; caption] ];
     slide_layouts := [ [] ];
     slides := [ [P1; P2; photo; floating]; [group; badge; caption] ] |}.

(** A deck whose only shape is the watermark badge, on a layout. *)
Definition badge_deck : Presentation :=
  {| slide_width := Some 9144000%Z;
     slide_height := Some 6858000%Z;
     slide_masters := [];
     slide_layouts := [ [badge] ];
     slides := [] |}.

Definition empty_deck : Presentation :=
  {| slide_width := Some 9144000%Z;
     slide_height := Some 6858000%Z;
     slide_masters := [];
     slide_layouts := [ [] ];
     slides := [] |}.

(** A deck with the group, the badge and the caption on a layout, and
    the deck the call makes of it. *)
Definition layout_deck : Presentation :=
  {| slide_width := Some 9144000%Z;
     slide_height := Some 6858000%Z;
     slide_masters := [];
     slide_layouts := [ [group; badge; caption] ];
     slides := [] |}.

Definition layout_deck_cleaned : Presentation :=
  {| slide_width := Some 9144000%Z;
     slide_height := Some 6858000%Z;
     slide_masters := [];
     slide_layouts := [ [group; caption_cleaned] ];
     slides := [] |}.

(** A deck with the badge and the caption on a master and on a slide. *)
Definition watermarked_deck : Presentation :=
  {| slide_width := Some 9144000%Z;
     slide_height := Some 6858000%Z;
     slide_masters := [ [badge; caption] ];
     slide_layouts := [ [] ];
     slides := [ [badge; caption] ] |}.


(** The deck with no slide size to read. *)
Definition unsized_deck : Presentation :=
  {| slide_width := None;
     slide_height := Some 6858000%Z;
     slide_masters := [ [badge; caption] ];
     slide_layouts := [ [] ];
     slides := [ [P1; P2; photo; floating]; [group; badge; caption] ] |}.

End Deck.

(* ================================================================== *)
(** ** Counters *)

Lemma bump_zero self : bump self 0 0 0 = self.
Proof.
  destruct self; unfold bump; simpl.
  now rewrite !Nat.add_0_r.
Qed.

Lemma bump_bump self a b c a' b' c' :
  bump (bump self a b c) a' b' c' = bump self (a + a') (b + b') (c + c').
Proof.
  unfold bump; simpl. now rewrite !Nat.add_assoc.
Qed.

Lemma add_links_bump self n : add_links self n = bump self n 0 0.
Proof. unfold add_links, bump. now rewrite !Nat.add_0_r. Qed.

Lemma add_shapes_bump self n : add_shapes self n = bump self 0 n 0.
Proof. unfold add_shapes, bump. now rewrite !Nat.add_0_r. Qed.

Lemma add_corner_images_bump self n : add_corner_images self n = bump self 0 0 n.
Proof. unfold add_corner_images, bump. now rewrite !Nat.add_0_r. Qed.

Lemma count_links_bump self n : count_links self n = bump self n 0 0.
Proof.
  unfold count_links. destruct (Nat.eqb_spec n 0) as [->|_].
  - now rewrite bump_zero.
  - apply add_links_bump.
Qed.

Lemma counts_of_bump self a b c :
  counts (bump self a b c) =
  (shapes_removed self + b, links_removed self + a,
   corner_images_removed self + c).
Proof. reflexivity. Qed.

(* ================================================================== *)
(** ** Strings *)

Lemma drop_spaces_nil l :
  Str.drop_spaces l = [] <-> forallb Str.is_space l = true.
Proof.
  induction l as [|c l IH]; simpl; [tauto|].
  destruct (Str.is_space c); simpl; [exact IH|].
  split; discriminate.
Qed.

Lemma drop_spaces_head l c l' :
  Str.drop_spaces l = c :: l' -> Str.is_space c = false.
Proof.
  induction l as [|d l IH]; simpl; [discriminate|].
  destruct (Str.is_space d) eqn:E; [exact IH|].
  intros [= <- _]. exact E.
Qed.

(** [text.strip() == ""] says that the text is empty or white space. *)
Lemma strip_blank t : Str.is_empty_text (Str.strip t) = Str.blank t.
Proof.
  unfold Str.strip, Str.blank.
  destruct (Str.drop_spaces t) as [|c l] eqn:E.
  - simpl. symmetry. now apply drop_spaces_nil.
  - assert (Hc := drop_spaces_head _ _ _ E).
    assert (Hb : forallb Str.is_space t = false).
    { destruct (forallb _ _) eqn:F; [|reflexivity].
      apply drop_spaces_nil in F. congruence. }
    rewrite Hb.
    destruct (Str.drop_spaces (rev (c :: l))) as [|d k] eqn:D.
    + apply drop_spaces_nil in D. simpl in D.
      rewrite forallb_app in D. simpl in D. rewrite Hc in D.
      rewrite andb_false_r in D. discriminate.
    + destruct (rev (d :: k)) as [|e m] eqn:R; [|reflexivity].
      apply (f_equal (@List.length _)) in R.
      rewrite length_rev in R. discriminate.
Qed.

(* ================================================================== *)
(** ** The link test and run stripping, in the vocabulary above *)

Lemma paragraphs_scan_not_true domain ps :
  paragraphs_scan domain ps <> ReturnsTrue.
Proof.
  induction ps as [|p ps IH]; simpl; [discriminate|].
  destruct (runs_scan domain (runs p)); auto. discriminate.
Qed.

(** The walk over the runs never makes the test answer [True]. *)
Lemma text_frame_scan_not_true domain s :
  text_frame_scan domain s <> ReturnsTrue.
Proof.
  unfold text_frame_scan.
  destruct (text_frame s) as [[tf|]|]; try discriminate.
  apply paragraphs_scan_not_true.
Qed.

Lemma click_link_test_linked domain s :
  linked domain s =
  match click_link_test domain s with ReturnsTrue => true | _ => false end.
Proof.
  unfold linked, click_link_test, click_address, hyperlink_matches.
  destruct (click_action s) as [| |[ca|]]; try reflexivity.
  destruct (hyperlink ca) as [[[a|]]|]; try reflexivity.
  simpl. now destruct (address_matches domain a).
Qed.

Lemma link_test_body_linked domain s :
  linked domain s =
  match link_test_body domain s with ReturnsTrue => true | _ => false end.
Proof.
  unfold link_test_body. rewrite click_link_test_linked.
  destruct (click_link_test domain s); try reflexivity.
  assert (H := text_frame_scan_not_true domain s).
  now destruct (text_frame_scan domain s).
Qed.

Lemma has_target_link_eq self s :
  _shape_has_target_link self s =
  (if linked (target_domain self) s then bump self 1 0 0 else self,
   linked (target_domain self) s).
Proof.
  unfold _shape_has_target_link.
  rewrite link_test_body_linked.
  destruct (link_test_body (target_domain self) s); try reflexivity.
  now rewrite add_links_bump.
Qed.

Lemma hyperlink_matches_run domain r :
  match hyperlink_matches domain (run_hyperlink r) with
  | Got b => b
  | ReadRaises => false
  end = run_linked domain r.
Proof.
  unfold hyperlink_matches, run_linked, run_address.
  now destruct (run_hyperlink r) as [[[a|]]|].
Qed.

Lemma strip_run_eq domain r :
  strip_run domain r =
  (run_after domain r, if run_linked domain r then 1 else 0).
Proof.
  unfold strip_run, run_after.
  rewrite <- hyperlink_matches_run.
  destruct (hyperlink_matches domain (run_hyperlink r)) as [[|]|];
    try reflexivity.
  cbv zeta. cbn [run_text]. rewrite strip_blank.
  now destruct (Str.blank (run_text r)).
Qed.

Lemma strip_runs_eq domain rs :
  strip_runs domain rs =
  (flat_map (run_after domain) rs,
   List.length (filter (run_linked domain) rs)).
Proof.
  induction rs as [|r rs IH]; [reflexivity|].
  simpl. rewrite strip_run_eq, IH.
  now destruct (run_linked domain r).
Qed.

Lemma strip_paragraphs_eq domain ps :
  strip_paragraphs domain ps =
  (map (fun p => {| runs := flat_map (run_after domain) (runs p) |}) ps,
   List.length (filter (run_linked domain) (flat_map runs ps))).
Proof.
  induction ps as [|p ps IH]; [reflexivity|].
  simpl. rewrite strip_runs_eq, IH.
  now rewrite filter_app, length_app.
Qed.

Lemma strip_text_run_links_eq self s :
  _strip_text_run_links self s =
  (edited (target_domain self) s, linked_runs (target_domain self) s).
Proof.
  unfold _strip_text_run_links, edited, linked_runs, shape_runs,
    strip_text_frame, text_frame_after.
  destruct (text_frame s) as [[tf|]|]; try reflexivity.
  now rewrite strip_paragraphs_eq.
Qed.

(* ================================================================== *)
(** ** Live collections *)


Lemma same_id_refl s : same_id s s = true.
Proof. apply Nat.eqb_refl. Qed.

Lemma distinct_ids_inj l x y :
  distinct_ids l -> In x l -> In y l -> shape_id x = shape_id y -> x = y.
Proof.
  unfold distinct_ids. induction l as [|a l IH]; simpl; [tauto|].
  intros H Hx Hy E. inversion H as [|? ? Ha Hl]; subst.
  destruct Hx as [->|Hx], Hy as [->|Hy]; auto.
  - exfalso. apply Ha. rewrite E. now apply in_map.
  - exfalso. apply Ha. rewrite <- E. now apply in_map.
Qed.

Lemma distinct_ids_filter p l : distinct_ids l -> distinct_ids (filter p l).
Proof.
  unfold distinct_ids. induction l as [|a l IH]; simpl; [auto|].
  intros H. inversion H as [|? ? Ha Hl]; subst.
  destruct (p a); simpl; auto.
  constructor; auto.
  intros Hin. apply Ha. apply in_map_iff in Hin as (y & E & Hy).
  apply filter_In in Hy as [Hy _]. rewrite <- E. now apply in_map.
Qed.

Lemma remove_shape_here done s rest :
  distinct_ids (done ++ s :: rest) ->
  remove_shape (done ++ s :: rest) s = done ++ rest.
Proof.
  intros H. unfold remove_shape.
  rewrite filter_app. simpl. rewrite same_id_refl. simpl.
  assert (K : forall l, (forall x, In x l -> In x (done ++ s :: rest)) ->
                        (forall x, In x l -> x <> s) ->
                        filter (fun x => negb (same_id x s)) l = l).
  { intros l Hin Hne. induction l as [|a l IH]; [reflexivity|].
    simpl. destruct (same_id a s) eqn:E; simpl.
    - exfalso. apply (Hne a (or_introl eq_refl)).
      apply (distinct_ids_inj _ _ _ H).
      + apply Hin. now left.
      + apply in_elt.
      + now apply Nat.eqb_eq.
    - f_equal. apply IH; intros; [apply Hin|apply Hne]; now right. }
  unfold distinct_ids in H. rewrite map_app in H. simpl in H.
  assert (Hd := NoDup_remove_2 _ _ _ H).
  rewrite !K; auto.
  - intros x Hx. apply in_or_app. right. now right.
  - intros x Hx ->. apply Hd. apply in_or_app. right. now apply in_map.
  - intros x Hx. apply in_or_app. now left.
  - intros x Hx ->. apply Hd. apply in_or_app. left. now apply in_map.
Qed.

Lemma store_shape_here done s s' rest :
  distinct_ids (done ++ s :: rest) -> shape_id s' = shape_id s ->
  store_shape (done ++ s :: rest) s' = done ++ s' :: rest.
Proof.
  intros H E. unfold store_shape.
  assert (K : forall l, (forall x, In x l -> shape_id x <> shape_id s) ->
                        map (fun x => if same_id x s' then s' else x) l = l).
  { intros l Hne. induction l as [|a l IH]; [reflexivity|].
    simpl. destruct (same_id a s') eqn:F.
    - exfalso. apply (Hne a (or_introl eq_refl)).
      apply Nat.eqb_eq in F. congruence.
    - f_equal. apply IH. intros; apply Hne; now right. }
  unfold distinct_ids in H. rewrite map_app in H. simpl in H.
  assert (Hd := NoDup_remove_2 _ _ _ H).
  rewrite map_app. simpl.
  replace (same_id s s') with true
    by (symmetry; apply Nat.eqb_eq; congruence).
  rewrite !K; auto.
  - intros x Hx Ex. apply Hd. apply in_or_app. right. rewrite <- Ex. now apply in_map.
  - intros x Hx Ex. apply Hd. apply in_or_app. left. rewrite <- Ex. now apply in_map.
Qed.

Lemma distinct_ids_drop done s rest :
  distinct_ids (done ++ s :: rest) -> distinct_ids (done ++ rest).
Proof.
  unfold distinct_ids. rewrite !map_app. simpl. apply NoDup_remove_1.
Qed.

Lemma distinct_ids_swap done s s' rest :
  shape_id s' = shape_id s ->
  distinct_ids (done ++ s :: rest) -> distinct_ids ((done ++ [s']) ++ rest).
Proof.
  unfold distinct_ids. intros E. rewrite <- app_assoc. simpl.
  rewrite !map_app. simpl. now rewrite E.
Qed.

(* ================================================================== *)
(** ** Run stripping touches the text frame only *)

Lemma edited_id domain s : shape_id (edited domain s) = shape_id s.
Proof. unfold edited. now destruct (text_frame s) as [[tf|]|]. Qed.

Lemma edited_click_action domain s :
  click_action (edited domain s) = click_action s.
Proof. unfold edited. now destruct (text_frame s) as [[tf|]|]. Qed.

Lemma edited_linked domain d s : linked d (edited domain s) = linked d s.
Proof. unfold linked, click_address. now rewrite edited_click_action. Qed.

Lemma edited_no_text_frame domain s :
  (forall tf, text_frame s <> Some (Some tf)) -> edited domain s = s.
Proof.
  unfold edited. destruct (text_frame s) as [[tf|]|]; try reflexivity.
  intros H. now destruct (H tf).
Qed.

Lemma linked_runs_no_text_frame domain s :
  (forall tf, text_frame s <> Some (Some tf)) -> linked_runs domain s = 0.
Proof.
  unfold linked_runs, shape_runs.
  destruct (text_frame s) as [[tf|]|]; try reflexivity.
  intros H. now destruct (H tf).
Qed.

(** No run that stripping leaves behind points to the domain. *)
Lemma run_after_unlinked domain r r' :
  In r' (run_after domain r) -> run_linked domain r' = false.
Proof.
  unfold run_after. destruct (run_linked domain r) eqn:E.
  - destruct (Str.blank (run_text r)); simpl; [tauto|].
    intros [<-|[]]. reflexivity.
  - simpl. intros [<-|[]]. exact E.
Qed.

Lemma shape_runs_edited domain s :
  shape_runs (edited domain s) = flat_map (run_after domain) (shape_runs s).
Proof.
  unfold edited, shape_runs.
  destruct (text_frame s) as [[tf|]|] eqn:T; rewrite ?T; try reflexivity.
  simpl. induction (paragraphs tf) as [|p ps IH]; [reflexivity|].
  simpl. now rewrite IH, flat_map_app.
Qed.

Lemma edited_runs_unlinked domain s r :
  In r (shape_runs (edited domain s)) -> run_linked domain r = false.
Proof.
  rewrite shape_runs_edited, in_flat_map.
  intros (r0 & _ & H). exact (run_after_unlinked _ _ _ H).
Qed.

Lemma flat_map_unchanged {A} (f : A -> list A) l :
  (forall x, In x l -> f x = [x]) -> flat_map f l = l.
Proof.
  induction l as [|a l IH]; intros H; [reflexivity|].
  simpl. rewrite (H a (or_introl eq_refl)). simpl. f_equal.
  apply IH. intros; apply H; now right.
Qed.

Lemma map_unchanged {A} (f : A -> A) l :
  (forall x, In x l -> f x = x) -> map f l = l.
Proof.
  induction l as [|a l IH]; intros H; [reflexivity|].
  simpl. rewrite (H a (or_introl eq_refl)). f_equal.
  apply IH. intros; apply H; now right.
Qed.

Lemma filter_none {A} (p : A -> bool) l :
  (forall x, In x l -> p x = false) -> filter p l = [].
Proof.
  induction l as [|a l IH]; intros H; [reflexivity|].
  simpl. rewrite (H a (or_introl eq_refl)).
  apply IH. intros; apply H; now right.
Qed.

Lemma filter_all {A} (p : A -> bool) l :
  (forall x, In x l -> p x = true) -> filter p l = l.
Proof.
  induction l as [|a l IH]; intros H; [reflexivity|].
  simpl. rewrite (H a (or_introl eq_refl)). f_equal.
  apply IH. intros; apply H; now right.
Qed.

(** A shape none of whose runs points to the domain is left as it is. *)
Lemma edited_unchanged domain s :
  (forall r, In r (shape_runs s) -> run_linked domain r = false) ->
  edited domain s = s.
Proof.
  unfold edited, shape_runs.
  destruct s as [i ty l t ca tfo g]. simpl.
  destruct tfo as [[tf|]|]; try reflexivity.
  intros H. unfold with_text_frame. simpl. do 3 f_equal.
  destruct tf as [ps]. unfold text_frame_after. simpl in *. f_equal.
  apply map_unchanged. intros [rs] Hp. simpl. f_equal.
  apply flat_map_unchanged. intros r Hr.
  unfold run_after. rewrite H; [reflexivity|].
  apply in_flat_map. exists {| runs := rs |}. now split.
Qed.

Lemma linked_runs_none domain s :
  (forall r, In r (shape_runs s) -> run_linked domain r = false) ->
  linked_runs domain s = 0.
Proof.
  intros H. unfold linked_runs. now rewrite filter_none.
Qed.

(* ================================================================== *)
(** ** The pass over a master or a layout, in closed form *)

Lemma kept_cons domain s l :
  kept domain (s :: l) =
  if linked domain s then kept domain l else edited domain s :: kept domain l.
Proof. unfold kept. simpl. now destruct (linked domain s). Qed.

Lemma n_linked_cons domain s l :
  n_linked domain (s :: l) =
  (if linked domain s then 1 else 0) + n_linked domain l.
Proof. unfold n_linked. simpl. now destruct (linked domain s). Qed.

Lemma n_stripped_cons domain s l :
  n_stripped domain (s :: l) =
  (if linked domain s then 0 else linked_runs domain s) + n_stripped domain l.
Proof. unfold n_stripped. simpl. now destruct (linked domain s). Qed.

(** One turn of the loop of [_process_shape_tree] on a shape that is not
    linked, whether it has a text frame or not. *)
Lemma unlinked_turn self s :
  (match text_frame s with
   | Some (Some _) =>
       let (s', changed) := _strip_text_run_links self s in
       (count_links self changed, s')
   | _ => (self, s)
   end) =
  (bump self (linked_runs (target_domain self) s) 0 0,
   edited (target_domain self) s).
Proof.
  destruct (text_frame s) as [[tf|]|] eqn:T.
  - now rewrite strip_text_run_links_eq, count_links_bump.
  - rewrite edited_no_text_frame, linked_runs_no_text_frame, bump_zero;
      congruence.
  - rewrite edited_no_text_frame, linked_runs_no_text_frame, bump_zero;
      congruence.
Qed.

Lemma shape_tree_loop_eq rest : forall done self,
  distinct_ids (done ++ rest) ->
  shape_tree_loop self rest (done ++ rest) =
  (bump self
        (n_linked (target_domain self) rest + n_stripped (target_domain self) rest)
        (n_linked (target_domain self) rest) 0,
   done ++ kept (target_domain self) rest).
Proof.
  induction rest as [|s rest IH]; intros done self H.
  - simpl. now rewrite bump_zero.
  - simpl. rewrite has_target_link_eq, kept_cons, n_linked_cons, n_stripped_cons.
    destruct (linked (target_domain self) s) eqn:L.
    + rewrite remove_shape_here by exact H.
      rewrite IH by exact (distinct_ids_drop _ _ _ H).
      rewrite add_shapes_bump, !bump_bump. simpl. do 2 f_equal; lia.
    + assert (T := unlinked_turn self s).
      assert (Hs : distinct_ids ((done ++ [edited (target_domain self) s]) ++ rest))
        by (apply (distinct_ids_swap _ s); [apply edited_id|exact H]).
      destruct (text_frame s) as [[tf|]|].
      * destruct (_strip_text_run_links self s) as [s' changed].
        injection T as -> ->.
        rewrite store_shape_here by (auto using edited_id).
        change (done ++ edited (target_domain self) s :: rest)
          with (done ++ [edited (target_domain self) s] ++ rest).
        rewrite app_assoc, IH by exact Hs.
        rewrite bump_bump, <- app_assoc. simpl. do 2 f_equal; lia.
      * injection T as T1 T2. rewrite <- T2 in Hs |- *.
        change (done ++ s :: rest) with (done ++ [s] ++ rest).
        rewrite app_assoc, IH by exact Hs.
        rewrite <- app_assoc. simpl. rewrite T1 at 1.
        rewrite bump_bump. simpl. do 2 f_equal; lia.
      * injection T as T1 T2. rewrite <- T2 in Hs |- *.
        change (done ++ s :: rest) with (done ++ [s] ++ rest).
        rewrite app_assoc, IH by exact Hs.
        rewrite <- app_assoc. simpl. rewrite T1 at 1.
        rewrite bump_bump. simpl. do 2 f_equal; lia.
Qed.

Lemma process_shape_tree_eq self obj :
  distinct_ids obj ->
  _process_shape_tree self obj =
  (bump self
        (n_linked (target_domain self) obj + n_stripped (target_domain self) obj)
        (n_linked (target_domain self) obj) 0,
   kept (target_domain self) obj).
Proof.
  intros H. unfold _process_shape_tree.
  apply (shape_tree_loop_eq obj [] self H).
Qed.

Lemma process_trees_eq objs : forall self,
  Forall distinct_ids objs ->
  process_trees self objs =
  (bump self
        (total (fun o => n_linked (target_domain self) o
                         + n_stripped (target_domain self) o) objs)
        (total (n_linked (target_domain self)) objs) 0,
   map (kept (target_domain self)) objs).
Proof.
  unfold total.
  induction objs as [|obj rest IH]; intros self H.
  - simpl. now rewrite bump_zero.
  - inversion H as [|? ? Ho Hr]; subst.
    simpl. rewrite process_shape_tree_eq by exact Ho.
    rewrite IH by exact Hr. rewrite bump_bump. reflexivity.
Qed.

(* ================================================================== *)
(** ** Proxies and their ids *)

Lemma iterate_snd alloc held coll : forall prev clock,
  map snd (iterate alloc held prev coll clock) = coll.
Proof.
  induction coll as [|s rest IH]; intros prev clock; simpl; [reflexivity|].
  now rewrite IH.
Qed.

Lemma snapshot_snd alloc coll : forall held clock,
  map snd (snapshot alloc held coll clock) = coll.
Proof.
  induction coll as [|s rest IH]; intros held clock; simpl; [reflexivity|].
  now rewrite IH.
Qed.

Lemma snapshot_length alloc held coll clock :
  List.length (snapshot alloc held coll clock) = List.length coll.
Proof.
  rewrite <- (snapshot_snd alloc coll held clock) at 2. now rewrite length_map.
Qed.

Lemma iterate_allocated alloc held coll : forall prev clock i,
  In i (map fst (iterate alloc held prev coll clock)) ->
  allocated_between alloc clock (clock + List.length coll) i.
Proof.
  induction coll as [|s rest IH]; intros prev clock i; simpl; [tauto|].
  intros [<-|H].
  - exists (prev ++ held), clock. split; [lia|reflexivity].
  - destruct (IH _ _ _ H) as (live & t & Ht & E).
    exists live, t. split; [lia|exact E].
Qed.

Lemma snapshot_allocated alloc coll : forall held clock i,
  In i (map fst (snapshot alloc held coll clock)) ->
  allocated_between alloc clock (clock + List.length coll) i.
Proof.
  induction coll as [|s rest IH]; intros held clock i; simpl; [tauto|].
  intros [<-|H].
  - exists held, clock. split; [lia|reflexivity].
  - destruct (IH _ _ _ H) as (live & t & Ht & E).
    exists live, t. split; [lia|exact E].
Qed.

(** A proxy built while the objects at [held] are alive has the id of
    none of them. *)
Lemma iterate_not_held alloc held coll :
  respects_liveness alloc -> forall prev clock i,
  In i (map fst (iterate alloc held prev coll clock)) -> ~ In i held.
Proof.
  intros A. induction coll as [|s rest IH]; intros prev clock i; simpl; [tauto|].
  intros [<-|H].
  - intros K. apply (A (prev ++ held) clock). apply in_or_app. now right.
  - exact (IH _ _ _ H).
Qed.

Lemma remove_loop_none ids snap : forall live n,
  (forall p, In p snap -> ~ In (fst p) ids) ->
  remove_loop ids snap live n = (live, n).
Proof.
  induction snap as [|p rest IH]; intros live n H; simpl; [reflexivity|].
  replace (id_in ids p) with false.
  - apply IH. intros; apply H; now right.
  - symmetry. apply not_true_is_false. unfold id_in. rewrite existsb_exists.
    intros (i & Hi & E). apply Nat.eqb_eq in E. subst.
    apply (H p); [now left|exact Hi].
Qed.

(** Ids that were given before the snapshot of [_remove_shapes_by_id] is
    taken match no proxy of it, when no address is given twice. *)
Lemma removal_misses alloc held slide ids from clock :
  never_reuses alloc ->
  (forall i, In i ids -> allocated_between alloc from clock i) ->
  _remove_shapes_by_id alloc held slide ids clock = (slide, 0).
Proof.
  intros N H. unfold _remove_shapes_by_id. apply remove_loop_none.
  intros p Hp Hi. apply H in Hi as (live & t & Ht & E).
  assert (Hq : In (fst p) (map fst (snapshot alloc held slide clock)))
    by now apply in_map.
  apply snapshot_allocated in Hq as (live' & t' & Ht' & E').
  apply (N live live' t t'); [lia|congruence].
Qed.

(* ================================================================== *)
(** ** The link sweep of a slide never runs *)

(** Line 84: the proxies of the snapshot are alive, so no proxy of the
    new enumeration has the id of one of them, and the loop goes on to
    the next shape, every time. *)
Lemma link_scan_skips alloc held :
  respects_liveness alloc -> forall todo self live acc clock,
  (forall p, In p todo -> In (fst p) held) ->
  link_scan alloc held self todo live acc clock =
  (self, live, acc, clock + List.length todo * List.length live).
Proof.
  intros A. induction todo as [|p rest IH]; intros self live acc clock H.
  - simpl. now rewrite Nat.add_0_r.
  - cbn [link_scan]. cbv zeta.
    destruct (existsb (Nat.eqb (fst p)) (map fst (iterate alloc held [] live clock)))
      eqn:E.
    + exfalso. apply existsb_exists in E as (i & Hi & Ei).
      apply Nat.eqb_eq in Ei. subst i.
      apply (iterate_not_held alloc held live A [] clock _ Hi).
      apply H. now left.
    + cbn [negb]. rewrite IH by (intros; apply H; now right).
      f_equal. simpl. lia.
Qed.

Lemma link_sweep_skips alloc held self slide clock :
  respects_liveness alloc ->
  link_sweep alloc held self slide clock =
  (self, slide,
   clock + List.length slide + List.length slide * List.length slide
   + List.length slide).
Proof.
  intros A. unfold link_sweep. cbv zeta.
  rewrite (link_scan_skips alloc _ A) by (intros p Hp; now apply in_map).
  unfold _remove_shapes_by_id.
  rewrite remove_loop_none by (intros p _ []).
  now rewrite add_shapes_bump, bump_zero, snapshot_length.
Qed.

(* ================================================================== *)
(** ** The corner sweep *)

Lemma corner_fires_none d re be l :
  corner_fires d re be l = false -> n_corner_linked d re be l = 0.
Proof.
  unfold corner_fires, n_corner_linked. intros H.
  rewrite filter_none; [reflexivity|].
  intros x Hx. destruct (corner_picture re be x && linked d x) eqn:E; [|reflexivity].
  rewrite <- H. symmetry. apply existsb_exists. now exists x.
Qed.

Lemma corner_scan_eq re be todo : forall self ids found,
  corner_scan self re be todo ids found =
  (bump self (n_corner_linked (target_domain self) re be (map snd todo)) 0 0,
   corner_ids re be todo ids,
   found || corner_fires (target_domain self) re be (map snd todo)).
Proof.
  unfold n_corner_linked, corner_ids, corner_fires.
  induction todo as [|p rest IH]; intros self ids found.
  - simpl. now rewrite bump_zero, orb_false_r.
  - cbn [corner_scan map filter existsb]. fold (corner_picture re be (snd p)).
    destruct (corner_picture re be (snd p)) eqn:C; cbn [andb orb].
    + rewrite has_target_link_eq.
      destruct (linked (target_domain self) (snd p)) eqn:L.
      * rewrite IH, bump_bump. simpl. rewrite orb_true_r. reflexivity.
      * rewrite IH. reflexivity.
    + apply IH.
Qed.

Lemma corner_ids_In re be scan : forall ids i,
  In i (corner_ids re be scan ids) -> In i ids \/ In i (map fst scan).
Proof.
  unfold corner_ids.
  induction scan as [|p rest IH]; intros ids i; simpl; [tauto|].
  destruct (corner_picture re be (snd p)); simpl.
  - intros H. apply IH in H as [H|H]; [|tauto].
    apply set_add_elim in H as [->|H]; tauto.
  - intros H. apply IH in H. tauto.
Qed.

(** The corner sweep for any allocator: the links of the corner pictures
    are counted; what is removed is what [_remove_shapes_by_id] finds
    under the ids of the scan. *)
Lemma corner_sweep_eq alloc self re be slide clock :
  corner_sweep alloc self re be slide clock =
  let scan := iterate alloc [] [] slide clock in
  let n := n_corner_linked (target_domain self) re be slide in
  if corner_fires (target_domain self) re be slide then
    let (slide1, removed) :=
      _remove_shapes_by_id alloc (last_id scan) slide
        (corner_ids re be scan (empty_set nat)) (clock + List.length slide) in
    (bump self n 0 removed, slide1, last_id scan,
     clock + List.length slide + List.length slide)
  else (bump self n 0 0, slide, last_id scan, clock + List.length slide).
Proof.
  unfold corner_sweep. cbv zeta.
  rewrite corner_scan_eq, iterate_snd. cbn [orb].
  destruct (corner_fires (target_domain self) re be slide); [|reflexivity].
  destruct (_remove_shapes_by_id _ _ _ _ _) as [slide1 removed].
  rewrite add_corner_images_bump, bump_bump, !Nat.add_0_r. reflexivity.
Qed.

(** When no corner picture is linked, or when no address is given twice,
    the corner sweep removes nothing. *)
Lemma corner_sweep_quiet alloc self re be slide clock :
  corner_fires (target_domain self) re be slide = false \/ never_reuses alloc ->
  exists held clock',
    corner_sweep alloc self re be slide clock =
    (bump self (n_corner_linked (target_domain self) re be slide) 0 0,
     slide, held, clock').
Proof.
  intros H. rewrite corner_sweep_eq. cbv zeta.
  destruct (corner_fires (target_domain self) re be slide) eqn:F; [|eauto].
  destruct H as [H|N]; [discriminate|].
  rewrite (removal_misses alloc _ slide _ clock _ N); [eauto|].
  intros i Hi. apply corner_ids_In in Hi as [[]|Hi].
  now apply iterate_allocated in Hi.
Qed.

(* ================================================================== *)
(** ** Slides, and the whole call, in closed form *)

Lemma process_slide_quiet alloc self prs slide clock sw sh :
  respects_liveness alloc ->
  _slide_size prs = Some (sw, sh) ->
  corner_fires (target_domain self)
    (PrimFloat.mul sw (corner_threshold self))
    (PrimFloat.mul sh (corner_threshold self)) slide = false
  \/ never_reuses alloc ->
  exists clock',
    _process_slide alloc self prs slide clock =
    Some (bump self
               (n_corner_linked (target_domain self)
                  (PrimFloat.mul sw (corner_threshold self))
                  (PrimFloat.mul sh (corner_threshold self)) slide) 0 0,
          slide, clock').
Proof.
  intros A Z H. unfold _process_slide. rewrite Z. cbv zeta.
  destruct (corner_sweep_quiet alloc self _ _ slide clock H)
    as (held & clock1 & E).
  rewrite E, (link_sweep_skips alloc _ _ _ _ A). eauto.
Qed.

Lemma process_slides_quiet alloc prs sw sh :
  respects_liveness alloc ->
  _slide_size prs = Some (sw, sh) ->
  forall todo self clock,
  (forall slide, In slide todo ->
     corner_fires (target_domain self)
       (PrimFloat.mul sw (corner_threshold self))
       (PrimFloat.mul sh (corner_threshold self)) slide = false)
  \/ never_reuses alloc ->
  process_slides alloc self prs todo clock =
  Some (bump self
             (total (n_corner_linked (target_domain self)
                       (PrimFloat.mul sw (corner_threshold self))
                       (PrimFloat.mul sh (corner_threshold self))) todo) 0 0,
        todo).
Proof.
  intros A Z. unfold total.
  induction todo as [|slide rest IH]; intros self clock H.
  - simpl. now rewrite bump_zero.
  - cbn [process_slides].
    destruct (process_slide_quiet alloc self prs slide clock sw sh A Z)
      as (clock1 & E).
    { destruct H as [H|N]; [left; apply H; now left|now right]. }
    rewrite E. rewrite IH.
    + cbn [target_domain corner_threshold bump map list_sum].
      rewrite bump_bump. reflexivity.
    + cbn [target_domain corner_threshold bump].
      destruct H as [H|N]; [left; intros; apply H; now right|now right].
Qed.

Lemma process_slides_raises alloc prs slide rest self clock :
  _slide_size prs = None ->
  process_slides alloc self prs (slide :: rest) clock = None.
Proof.
  intros H. simpl. unfold _process_slide. now rewrite H.
Qed.

(** The call in closed form, when no corner picture is linked or no
    address is given twice: the layouts are cleaned, the links of the
    corner pictures are counted, and that is all. *)
Lemma clean_quiet alloc self prs :
  respects_liveness alloc ->
  Forall distinct_ids (slide_layouts prs) ->
  no_corner_link (target_domain self) (corner_threshold self) prs
  \/ never_reuses alloc ->
  clean_pptx_from_target_domain alloc self prs =
  if completes prs then
    let self' :=
      bump self
           (links_counted (target_domain self) (corner_threshold self) prs)
           (shapes_counted (target_domain self) prs) 0 in
    Some (self', cleaned (target_domain self) prs, counts self')
  else None.
Proof.
  intros A Hl H.
  unfold clean_pptx_from_target_domain, process_masters, part_slide_masters,
    completes, cleaned, links_counted, shapes_counted, no_corner_link,
    right_edge_of, bottom_edge_of in *.
  rewrite process_trees_eq by exact Hl.
  destruct (_slide_size prs) as [[sw sh]|] eqn:Z.
  - rewrite (process_slides_quiet alloc prs sw sh A Z)
      by (cbn [target_domain corner_threshold bump]; exact H).
    cbv zeta. rewrite bump_bump. cbn [target_domain corner_threshold bump].
    replace (match slides prs with [] => true | _ :: _ => true end) with true
      by now destruct (slides prs).
    rewrite !Nat.add_0_r. reflexivity.
  - destruct (slides prs) as [|slide rest].
    + simpl. unfold total. simpl. rewrite !Nat.add_0_r. reflexivity.
    + now rewrite process_slides_raises.
Qed.

(* ================================================================== *)
(** ** The counters do not steer the call *)

(** What the loop of the link sweep adds and leaves is the same for every
    cleaner of one target domain. *)
Lemma link_scan_delta alloc held d todo : forall live acc clock,
  exists a live' acc' clock', forall self,
    target_domain self = d ->
    link_scan alloc held self todo live acc clock =
    (bump self a 0 0, live', acc', clock').
Proof.
  induction todo as [|p rest IH]; intros live acc clock.
  - exists 0, live, acc, clock. intros self _. simpl. now rewrite bump_zero.
  - destruct (negb (existsb (Nat.eqb (fst p))
                      (map fst (iterate alloc held [] live clock)))) eqn:E.
    + destruct (IH live acc (clock + List.length live)) as (a & l' & r' & k' & F).
      exists a, l', r', k'. intros self Hd.
      cbn [link_scan]. cbv zeta. rewrite E. now apply F.
    + destruct (linked d (snd p)) eqn:L.
      * destruct (IH live (acc ++ [fst p]) (clock + List.length live))
          as (a & l' & r' & k' & F).
        exists (1 + a), l', r', k'. intros self Hd.
        cbn [link_scan]. cbv zeta. rewrite E, has_target_link_eq, Hd, L.
        rewrite F by exact Hd. now rewrite bump_bump.
      * destruct (text_frame (snd p)) as [[tf|]|] eqn:T.
        -- destruct (IH (store_shape live (edited d (snd p))) acc
                        (clock + List.length live)) as (a & l' & r' & k' & F).
           exists (linked_runs d (snd p) + a), l', r', k'. intros self Hd.
           cbn [link_scan]. cbv zeta. rewrite E, has_target_link_eq, Hd, L, T.
           rewrite strip_text_run_links_eq, count_links_bump, Hd.
           rewrite F by exact Hd. now rewrite bump_bump.
        -- destruct (IH live acc (clock + List.length live))
             as (a & l' & r' & k' & F).
           exists a, l', r', k'. intros self Hd.
           cbn [link_scan]. cbv zeta. rewrite E, has_target_link_eq, Hd, L, T.
           now apply F.
        -- destruct (IH live acc (clock + List.length live))
             as (a & l' & r' & k' & F).
           exists a, l', r', k'. intros self Hd.
           cbn [link_scan]. cbv zeta. rewrite E, has_target_link_eq, Hd, L, T.
           now apply F.
Qed.

Lemma link_sweep_delta alloc held d slide clock :
  exists a b slide' clock', forall self,
    target_domain self = d ->
    link_sweep alloc held self slide clock = (bump self a b 0, slide', clock').
Proof.
  destruct (link_scan_delta alloc (map fst (snapshot alloc held slide clock)) d
              (snapshot alloc held slide clock) slide []
              (clock + List.length slide)) as (a & l' & r' & k' & F).
  destruct (_remove_shapes_by_id alloc
              (match last_id (snapshot alloc held slide clock) with
               | [] => held
               | l => l
               end) l' r' k') as [slide1 removed] eqn:R.
  exists a, removed, slide1, (k' + List.length l'). intros self Hd.
  unfold link_sweep. cbv zeta. rewrite (F self Hd), R.
  rewrite add_shapes_bump, bump_bump, !Nat.add_0_r. reflexivity.
Qed.

Lemma process_slide_delta alloc prs d ct sw sh slide clock :
  _slide_size prs = Some (sw, sh) ->
  exists a b c slide' clock', forall self,
    target_domain self = d -> corner_threshold self = ct ->
    _process_slide alloc self prs slide clock =
    Some (bump self a b c, slide', clock').
Proof.
  intros Z.
  set (re := PrimFloat.mul sw ct). set (be := PrimFloat.mul sh ct).
  set (scan := iterate alloc [] [] slide clock).
  destruct (corner_fires d re be slide) eqn:C.
  - destruct (_remove_shapes_by_id alloc (last_id scan) slide
                (corner_ids re be scan (empty_set nat))
                (clock + List.length slide)) as [slide1 removed] eqn:R.
    destruct (link_sweep_delta alloc (last_id scan) d slide1
                (clock + List.length slide + List.length slide))
      as (a & b & slide' & clock' & F).
    exists (n_corner_linked d re be slide + a), b, removed, slide', clock'.
    intros self Hd Ht. unfold _process_slide.
    rewrite Z, corner_sweep_eq, Hd, Ht. cbv zeta. fold re be scan.
    rewrite C, R, F by exact Hd.
    rewrite bump_bump, Nat.add_0_r. reflexivity.
  - destruct (link_sweep_delta alloc (last_id scan) d slide
                (clock + List.length slide))
      as (a & b & slide' & clock' & F).
    exists (n_corner_linked d re be slide + a), b, 0, slide', clock'.
    intros self Hd Ht. unfold _process_slide.
    rewrite Z, corner_sweep_eq, Hd, Ht. cbv zeta. fold re be scan.
    rewrite C, F by exact Hd.
    rewrite bump_bump. reflexivity.
Qed.

Lemma process_slides_delta alloc prs d ct sw sh :
  _slide_size prs = Some (sw, sh) ->
  forall todo clock,
  exists a b c todo', forall self,
    target_domain self = d -> corner_threshold self = ct ->
    process_slides alloc self prs todo clock = Some (bump self a b c, todo').
Proof.
  intros Z. induction todo as [|slide rest IH]; intros clock.
  - exists 0, 0, 0, []. intros self _ _. simpl. now rewrite bump_zero.
  - destruct (process_slide_delta alloc prs d ct sw sh slide clock Z)
      as (a & b & c & slide' & clock' & F).
    destruct (IH clock') as (a' & b' & c' & rest' & G).
    exists (a + a'), (b + b'), (c + c'), (slide' :: rest').
    intros self Hd Ht. cbn [process_slides].
    rewrite (F self Hd Ht), (G (bump self a b c) Hd Ht), bump_bump.
    reflexivity.
Qed.

(** The call adds the same numbers and leaves the same presentation for
    every cleaner of one configuration, or raises for every one. *)
Lemma clean_delta alloc prs d ct :
  Forall distinct_ids (slide_layouts prs) ->
  (exists a b c prs', forall self,
     target_domain self = d -> corner_threshold self = ct ->
     clean_pptx_from_target_domain alloc self prs =
     Some (bump self a b c, prs', counts (bump self a b c)))
  \/ (forall self,
        target_domain self = d -> corner_threshold self = ct ->
        clean_pptx_from_target_domain alloc self prs = None).
Proof.
  intros Hl.
  unfold clean_pptx_from_target_domain, process_masters, part_slide_masters.
  destruct (_slide_size prs) as [[sw sh]|] eqn:Z.
  - left.
    destruct (process_slides_delta alloc prs d ct sw sh Z (slides prs) 0)
      as (a & b & c & slides' & F).
    eexists _, _, _, _. intros self Hd Ht.
    rewrite process_trees_eq, Hd by exact Hl.
    rewrite F by (cbn [target_domain corner_threshold bump]; assumption).
    rewrite bump_bump. reflexivity.
  - destruct (slides prs) as [|slide rest].
    + left. eexists _, _, 0, _. intros self Hd Ht.
      rewrite process_trees_eq, Hd by exact Hl. reflexivity.
    + right. intros self Hd Ht.
      rewrite process_trees_eq by exact Hl.
      now rewrite process_slides_raises.
Qed.

(* ================================================================== *)
(** ** An allocator that gives every address once *)

Lemma first_free_spec fuel : forall live c,
  List.length live <= fuel -> 0 < c ->
  ~ In (first_free fuel live c) live /\
  c <= first_free fuel live c /\
  exists j, first_free fuel live c = 2 ^ j * c.
Proof.
  induction fuel as [|fuel IH]; intros live c Hl Hc.
  - destruct live; [|simpl in Hl; lia]. simpl.
    split; [tauto|]. split; [lia|]. exists 0. simpl. lia.
  - cbn [first_free]. destruct (existsb (Nat.eqb c) live) eqn:E.
    + apply existsb_exists in E as (x & Hx & Ex).
      apply Nat.eqb_eq in Ex. subst x.
      assert (L := remove_length_lt Nat.eq_dec live c Hx).
      destruct (IH (remove Nat.eq_dec c live) (2 * c)) as (H1 & H2 & j & Hj);
        [lia|lia|].
      split; [|split].
      * intros K. apply H1. apply in_in_remove; [lia|exact K].
      * lia.
      * exists (S j). rewrite Hj, Nat.pow_succ_r'. ring.
    + split; [|split; [lia|exists 0; simpl; lia]].
      intros K.
      assert (T : existsb (Nat.eqb c) live = true)
        by (apply existsb_exists; exists c; split; [exact K|apply Nat.eqb_refl]).
      congruence.
Qed.

Lemma odd_part_determined j : forall j' a b,
  2 ^ j * (2 * a + 1) = 2 ^ j' * (2 * b + 1) -> a = b.
Proof.
  induction j as [|j IH]; intros [|j'] a b H.
  - simpl in H. lia.
  - rewrite Nat.pow_succ_r', <- Nat.mul_assoc in H. simpl (2 ^ 0) in H. lia.
  - rewrite Nat.pow_succ_r', <- Nat.mul_assoc in H. simpl (2 ^ 0) in H. lia.
  - rewrite !Nat.pow_succ_r', <- !Nat.mul_assoc in H.
    apply (IH j'). lia.
Qed.

Lemma fresh_address_respects_liveness : respects_liveness fresh_address.
Proof.
  intros live t. unfold fresh_address.
  apply (first_free_spec (List.length live) live (2 * t + 1)); lia.
Qed.

Lemma fresh_address_never_reuses : never_reuses fresh_address.
Proof.
  intros live live' t t' Ht E. unfold fresh_address in E.
  destruct (first_free_spec (List.length live) live (2 * t + 1))
    as (_ & _ & j & Hj); [lia|lia|].
  destruct (first_free_spec (List.length live') live' (2 * t' + 1))
    as (_ & _ & j' & Hj'); [lia|lia|].
  apply Ht. apply (odd_part_determined j j'). congruence.
Qed.

(* ================================================================== *)
(** ** What is left after the pass over a layout *)

Lemma kept_In domain l s :
  In s (kept domain l) <->
  exists s0, In s0 l /\ linked domain s0 = false /\ s = edited domain s0.
Proof.
  unfold kept. rewrite in_map_iff. split.
  - intros (s0 & E & H). apply filter_In in H as [H L].
    exists s0. repeat split; auto. now destruct (linked domain s0).
  - intros (s0 & H & L & E). exists s0. split; [auto|].
    apply filter_In. now rewrite L.
Qed.

Lemma kept_link_free domain l : link_free domain (kept domain l).
Proof.
  intros s Hs. apply kept_In in Hs as (s0 & _ & L & ->). split.
  - now rewrite edited_linked.
  - apply edited_runs_unlinked.
Qed.

Lemma link_free_kept domain l : link_free domain l -> kept domain l = l.
Proof.
  intros H. unfold kept. rewrite filter_all.
  - apply map_unchanged. intros s Hs. apply edited_unchanged. now apply H.
  - intros s Hs. now rewrite (proj1 (H s Hs)).
Qed.

Lemma link_free_n_linked domain l : link_free domain l -> n_linked domain l = 0.
Proof.
  intros H. unfold n_linked. rewrite filter_none; [reflexivity|].
  intros s Hs. apply (H s Hs).
Qed.

Lemma link_free_n_stripped domain l : link_free domain l -> n_stripped domain l = 0.
Proof.
  intros H. unfold n_stripped.
  induction l as [|s l IH]; [reflexivity|].
  simpl. destruct (H s (or_introl eq_refl)) as [L R]. rewrite L. simpl.
  rewrite (linked_runs_none _ _ R). simpl.
  apply IH. intros x Hx. apply H. now right.
Qed.

Lemma total_zero f objs :
  (forall o, In o objs -> f o = 0) -> total f objs = 0.
Proof.
  unfold total. induction objs as [|o objs IH]; intros H; [reflexivity|].
  simpl. rewrite (H o (or_introl eq_refl)). simpl.
  apply IH. intros; apply H; now right.
Qed.

Lemma distinct_ids_kept domain l : distinct_ids l -> distinct_ids (kept domain l).
Proof.
  intros H. unfold kept, distinct_ids. rewrite map_map.
  rewrite (map_ext _ shape_id) by (intros; apply edited_id).
  now apply distinct_ids_filter.
Qed.

Lemma Forall_map_intro {A} (P : A -> Prop) (f : A -> A) l :
  (forall x, P x -> P (f x)) -> Forall P l -> Forall P (map f l).
Proof.
  intros H F. induction F; simpl; constructor; auto.
Qed.

(** Cleaning a presentation that was cleaned: the layouts have nothing
    left to remove; the slides are what they were. *)
Lemma cleaned_again d ct prs :
  cleaned d (cleaned d prs) = cleaned d prs /\
  links_counted d ct (cleaned d prs) =
    total (n_corner_linked d (right_edge_of ct prs) (bottom_edge_of ct prs))
          (slides prs) /\
  shapes_counted d (cleaned d prs) = 0 /\
  completes (cleaned d prs) = completes prs.
Proof.
  unfold cleaned, links_counted, shapes_counted, completes,
    right_edge_of, bottom_edge_of, _slide_size. simpl.
  repeat split.
  - f_equal. rewrite map_map. apply map_ext. intros l.
    apply link_free_kept, kept_link_free.
  - rewrite total_zero; [reflexivity|].
    intros o Ho. apply in_map_iff in Ho as (l & <- & _).
    now rewrite link_free_n_linked, link_free_n_stripped
      by apply kept_link_free.
  - apply total_zero. intros o Ho. apply in_map_iff in Ho as (l & <- & _).
    apply link_free_n_linked, kept_link_free.
Qed.

(* ================================================================== *)
(** ** Nested shapes *)












(* ================================================================== *)
(** ** Removal by the ids of new proxies *)

Lemma filter_split_length {A} (p : A -> bool) l :
  List.length l =
  List.length (filter (fun x => negb (p x)) l) + List.length (filter p l).
Proof.
  induction l as [|a l IH]; [reflexivity|].
  simpl. destruct (p a); simpl; lia.
Qed.

Lemma remove_loop_eq ids snap : forall done n,
  distinct_ids (done ++ map snd snap) ->
  remove_loop ids snap (done ++ map snd snap) n =
  (done ++ map snd (filter (fun p => negb (id_in ids p)) snap),
   n + List.length (filter (id_in ids) snap)).
Proof.
  induction snap as [|p rest IH]; intros done n D.
  - simpl. now rewrite Nat.add_0_r.
  - cbn [map] in D. cbn [map remove_loop filter].
    destruct (id_in ids p) eqn:E; cbn [negb].
    + rewrite remove_shape_here by exact D.
      rewrite IH by exact (distinct_ids_drop _ _ _ D).
      f_equal. simpl. lia.
    + change (done ++ snd p :: map snd rest)
        with (done ++ [snd p] ++ map snd rest) in *.
      rewrite app_assoc in *. rewrite IH by exact D.
      now rewrite <- app_assoc.
Qed.

Lemma remove_shapes_by_id_eq alloc held slide ids clock :
  distinct_ids slide ->
  _remove_shapes_by_id alloc held slide ids clock =
  (map snd (filter (fun p => negb (id_in ids p)) (snapshot alloc held slide clock)),
   List.length (filter (id_in ids) (snapshot alloc held slide clock))).
Proof.
  intros D. unfold _remove_shapes_by_id.
  assert (E := remove_loop_eq ids (snapshot alloc held slide clock) [] 0).
  rewrite snapshot_snd in E. exact (E D).
Qed.

Lemma remove_shapes_by_id_length alloc held slide ids clock :
  distinct_ids slide ->
  List.length slide =
  List.length (fst (_remove_shapes_by_id alloc held slide ids clock))
  + snd (_remove_shapes_by_id alloc held slide ids clock).
Proof.
  intros D. rewrite remove_shapes_by_id_eq by exact D. cbn [fst snd].
  rewrite length_map, <- filter_split_length. symmetry. apply snapshot_length.
Qed.

Lemma remove_shapes_by_id_incl alloc held slide ids clock :
  distinct_ids slide ->
  incl (fst (_remove_shapes_by_id alloc held slide ids clock)) slide.
Proof.
  intros D. rewrite remove_shapes_by_id_eq by exact D. cbn [fst].
  intros s Hs. apply in_map_iff in Hs as (p & <- & Hp).
  apply filter_In in Hp as [Hp _].
  rewrite <- (snapshot_snd alloc slide held clock). now apply in_map.
Qed.

Lemma id_in_In ids p : id_in ids p = true <-> In (fst p) ids.
Proof.
  unfold id_in. rewrite existsb_exists. split.
  - intros (i & Hi & E). apply Nat.eqb_eq in E. now subst.
  - intros H. exists (fst p). split; [exact H|apply Nat.eqb_refl].
Qed.

(* ================================================================== *)
(** ** The call under Python's promise alone *)

(** A slide, for every allocator that keeps Python's promise: the links
    of the corner pictures are counted, the link sweep does nothing, and
    what leaves the slide was removed by the corner sweep and counted. *)
Lemma process_slide_alive alloc self prs slide clock sw sh :
  respects_liveness alloc ->
  distinct_ids slide ->
  _slide_size prs = Some (sw, sh) ->
  exists c slide' clock',
    _process_slide alloc self prs slide clock =
    Some (bump self
               (n_corner_linked (target_domain self)
                  (PrimFloat.mul sw (corner_threshold self))
                  (PrimFloat.mul sh (corner_threshold self)) slide) 0 c,
          slide', clock') /\
    List.length slide = List.length slide' + c /\
    incl slide' slide.
Proof.
  intros A D Z. unfold _process_slide. rewrite Z, corner_sweep_eq. cbv zeta.
  destruct (corner_fires _ _ _ slide).
  - assert (L := remove_shapes_by_id_length alloc
                   (last_id (iterate alloc [] [] slide clock)) slide
                   (corner_ids (PrimFloat.mul sw (corner_threshold self))
                      (PrimFloat.mul sh (corner_threshold self))
                      (iterate alloc [] [] slide clock) (empty_set nat))
                   (clock + List.length slide) D).
    assert (I := remove_shapes_by_id_incl alloc
                   (last_id (iterate alloc [] [] slide clock)) slide
                   (corner_ids (PrimFloat.mul sw (corner_threshold self))
                      (PrimFloat.mul sh (corner_threshold self))
                      (iterate alloc [] [] slide clock) (empty_set nat))
                   (clock + List.length slide) D).
    destruct (_remove_shapes_by_id _ _ _ _ _) as [slide1 removed].
    rewrite (link_sweep_skips alloc _ _ _ _ A).
    eexists _, _, _. split; [reflexivity|]. split; [exact L|exact I].
  - rewrite (link_sweep_skips alloc _ _ _ _ A).
    eexists _, _, _. split; [reflexivity|]. split; [lia|apply incl_refl].
Qed.

Lemma process_slides_alive alloc prs sw sh :
  respects_liveness alloc ->
  _slide_size prs = Some (sw, sh) ->
  forall todo self clock,
  Forall distinct_ids todo ->
  exists c todo',
    process_slides alloc self prs todo clock =
    Some (bump self
               (total (n_corner_linked (target_domain self)
                         (PrimFloat.mul sw (corner_threshold self))
                         (PrimFloat.mul sh (corner_threshold self))) todo) 0 c,
          todo') /\
    List.length (List.concat todo) = List.length (List.concat todo') + c /\
    Forall2 (fun slide slide' => incl slide' slide) todo todo'.
Proof.
  intros A Z. unfold total.
  induction todo as [|slide rest IH]; intros self clock D.
  - exists 0, []. simpl. rewrite bump_zero. repeat split. constructor.
  - inversion D as [|? ? Ds Dr]; subst.
    destruct (process_slide_alive alloc self prs slide clock sw sh A Ds Z)
      as (c & slide' & clock' & E & L & I).
    destruct (IH (bump self
                    (n_corner_linked (target_domain self)
                       (PrimFloat.mul sw (corner_threshold self))
                       (PrimFloat.mul sh (corner_threshold self)) slide) 0 c)
                 clock' Dr) as (c' & rest' & E' & L' & I').
    exists (c + c'), (slide' :: rest').
    cbn [process_slides]. rewrite E, E'.
    cbn [target_domain corner_threshold bump map list_sum].
    rewrite bump_bump. split; [reflexivity|]. split.
    + simpl. rewrite !length_app. lia.
    + now constructor.
Qed.

Lemma kept_length d l :
  List.length l = List.length (kept d l) + n_linked d l.
Proof.
  unfold kept, n_linked. rewrite length_map. apply filter_split_length.
Qed.

Lemma concat_length_split (F : shapes_of -> shapes_of) (g : shapes_of -> nat) objs :
  (forall o, List.length o = List.length (F o) + g o) ->
  List.length (List.concat objs) =
  List.length (List.concat (map F objs)) + total g objs.
Proof.
  intros H. unfold total. induction objs as [|o objs IH]; [reflexivity|].
  simpl. rewrite !length_app, IH, (H o). lia.
Qed.

Lemma total_le f g objs :
  (forall o, f o <= g o) -> total f objs <= total g objs.
Proof.
  intros H. unfold total. induction objs as [|o objs IH]; [simpl; lia|].
  simpl. specialize (H o). lia.
Qed.

(** The call, for every allocator that keeps Python's promise. *)
Lemma clean_alive alloc self prs self' prs' t :
  respects_liveness alloc ->
  well_formed prs ->
  clean_pptx_from_target_domain alloc self prs = Some (self', prs', t) ->
  exists c,
    self' = bump self
              (links_counted (target_domain self) (corner_threshold self) prs)
              (shapes_counted (target_domain self) prs) c /\
    t = counts self' /\
    n_top_level prs =
      n_top_level prs' + (shapes_counted (target_domain self) prs + c) /\
    slide_masters prs' = slide_masters prs /\
    slide_layouts prs' = map (kept (target_domain self)) (slide_layouts prs) /\
    Forall2 (fun slide slide' => incl slide' slide) (slides prs) (slides prs').
Proof.
  intros A (_ & Hl & Hs) E.
  unfold clean_pptx_from_target_domain, process_masters, part_slide_masters in E.
  rewrite process_trees_eq in E by exact Hl.
  unfold links_counted, shapes_counted, right_edge_of, bottom_edge_of,
    n_top_level, top_level_shapes.
  destruct (_slide_size prs) as [[sw sh]|] eqn:Z.
  - destruct (process_slides_alive alloc prs sw sh A Z (slides prs)
                (bump self
                   (total (fun o => n_linked (target_domain self) o
                                    + n_stripped (target_domain self) o)
                          (slide_layouts prs))
                   (total (n_linked (target_domain self)) (slide_layouts prs)) 0)
                0 Hs) as (c & slides' & F & L & I).
    rewrite F in E. injection E as <- <- <-.
    exists c. rewrite bump_bump.
    cbn [target_domain corner_threshold bump slide_masters slide_layouts slides].
    rewrite !Nat.add_0_r. repeat split; auto.
    rewrite !length_app, L.
    rewrite (concat_length_split (kept (target_domain self))
               (n_linked (target_domain self)) (slide_layouts prs))
      by apply kept_length.
    unfold shapes_of. lia.
  - destruct (slides prs) as [|slide rest].
    + simpl in E. injection E as <- <- <-.
      exists 0. unfold total.
      cbn [target_domain corner_threshold bump slide_masters slide_layouts
           slides map list_sum List.concat].
      rewrite !Nat.add_0_r. repeat split; auto.
      rewrite !length_app.
      rewrite (concat_length_split (kept (target_domain self))
                 (n_linked (target_domain self)) (slide_layouts prs))
        by apply kept_length.
      unfold total, shapes_of. simpl. lia.
    + rewrite process_slides_raises in E by exact Z. discriminate.
Qed.

(* ================================================================== *)
(** ** Nested shapes have no part in the call *)











(* ================================================================== *)
(** ** The deck *)

Ltac distinct := unfold distinct_ids; simpl; repeat constructor; simpl; intuition discriminate.

Ltac well_formed := unfold well_formed; simpl; repeat split; repeat constructor; distinct.

Lemma deck_well_formed : well_formed Deck.deck.
Proof. well_formed. Qed.

Lemma badge_deck_well_formed : well_formed Deck.badge_deck.
Proof. well_formed. Qed.

Lemma watermarked_deck_well_formed : well_formed Deck.watermarked_deck.
Proof. well_formed. Qed.


Lemma layout_deck_well_formed : well_formed Deck.layout_deck.
Proof. well_formed. Qed.

(** The call on the deck: one link is counted, that of the corner picture
    [P2], and the deck is left as it was. *)
Lemma clean_deck :
  clean_pptx_from_target_domain fresh_address Deck.remover Deck.deck =
  Some (bump Deck.remover 1 0 0, Deck.deck, (0, 1, 0)).
Proof. vm_compute. reflexivity. Qed.

(* ================================================================== *)
(** ** The properties of the specification *)

(** C1 does not hold of the program.  The call never removes a link from
    a master or from a slide.  The masters are left as they are: the loop
    over them reads [prs.part.slide_masters], which raises, and the handler
    goes on.  On a slide the link sweep skips every shape at line 84, for
    every allocator that keeps Python's promise: no shape is removed for
    its link, and every shape that is left on a slide is as it was, its
    click hyperlink and its runs included.  A slide changes only if the
    corner sweep removes something, which takes a linked corner picture
    and an address given twice; otherwise every top-level shape of a
    master or a slide is still there after the call.  Only the layouts are
    cleaned. *)
Theorem clean_leaves_masters_and_slides alloc self prs self' prs' t :
  respects_liveness alloc ->
  well_formed prs ->
  clean_pptx_from_target_domain alloc self prs = Some (self', prs', t) ->
  slide_masters prs' = slide_masters prs /\
  Forall2 (fun slide slide' => incl slide' slide) (slides prs) (slides prs') /\
  slide_layouts prs' = map (kept (target_domain self)) (slide_layouts prs) /\
  shapes_removed self' =
    shapes_removed self + total (n_linked (target_domain self)) (slide_layouts prs) /\
  (no_corner_link (target_domain self) (corner_threshold self) prs
   \/ never_reuses alloc ->
   slides prs' = slides prs /\
   forall s, In s (List.concat (slide_masters prs) ++ List.concat (slides prs)) ->
     In s (top_level_shapes prs')).
Proof.
  intros A W E.
  destruct (clean_alive alloc self prs self' prs' t A W E)
    as (c & S & _ & _ & M & L & I).
  split; [exact M|]. split; [exact I|]. split; [exact L|]. split.
  - rewrite S. reflexivity.
  - intros Q. destruct W as (_ & Hl & _).
    rewrite clean_quiet in E by assumption.
    destruct (completes prs); [|discriminate].
    cbv zeta in E. injection E as _ <- _.
    split; [reflexivity|].
    intros s Hs. unfold top_level_shapes, cleaned. simpl.
    apply in_app_or in Hs as [Hs|Hs]; apply in_or_app; [now left|right].
    apply in_or_app. now right.
Qed.

Lemma linked_badge_survives_clean :
  clean_pptx_from_target_domain fresh_address Deck.remover Deck.watermarked_deck =
    Some (Deck.remover, Deck.watermarked_deck, (0, 0, 0)) /\
  In Deck.badge (top_level_shapes Deck.watermarked_deck) /\
  address_matches "gamma.app" (click_address Deck.badge) = true /\
  In Deck.caption (top_level_shapes Deck.watermarked_deck) /\
  existsb (fun r => address_matches "gamma.app" (run_address r))
          (shape_runs Deck.caption) = true.
Proof.
  assert (E : clean_pptx_from_target_domain fresh_address Deck.remover
                Deck.watermarked_deck =
              Some (Deck.remover, Deck.watermarked_deck, (0, 0, 0)))
    by (vm_compute; reflexivity).
  destruct (clean_leaves_masters_and_slides fresh_address Deck.remover
              Deck.watermarked_deck _ _ _ fresh_address_respects_liveness
              watermarked_deck_well_formed E) as (_ & _ & _ & _ & K).
  destruct (K (or_intror fresh_address_never_reuses)) as [_ K'].
  split; [exact E|].
  split; [apply K'; simpl; tauto|]. split; [vm_compute; reflexivity|].
  split; [apply K'; simpl; tauto|vm_compute; reflexivity].
Defined.

(** The corner pictures in the words of the specification: pictures
    whose left and top offsets, as floats, are at or beyond the edges. *)
Lemma corner_picture_region re be s :
  corner_picture re be s = true <->
  shape_type s = PICTURE /\
  exists l t, float_of_attr (left s) = Some l /\
              float_of_attr (top s) = Some t /\
              in_corner_region l t re be.
Proof.
  unfold corner_picture, _is_in_corner, in_corner_region.
  rewrite andb_true_iff. split.
  - intros [P C]. split; [now destruct (shape_type s)|].
    destruct (float_of_attr (left s)) as [l|]; [|discriminate].
    destruct (float_of_attr (top s)) as [t|]; [|discriminate].
    exists l, t. apply andb_true_iff in C. tauto.
  - intros [P (l & t & -> & -> & H1 & H2)]. rewrite P, H1, H2. split; reflexivity.
Qed.

(** C2 does not hold of the program.  Processing a slide removes no
    corner picture, linked or not, and leaves [corner_images_removed] as it
    was: the ids that the corner scan stores are those of the proxies of
    that scan, and [_remove_shapes_by_id] looks for them among the ids of
    proxies it builds anew.  The slide is returned as it was; the links of
    the linked corner pictures are counted in [links_removed]
    nevertheless.  Stated for an allocator that gives no address twice. *)
Theorem corner_link_removes_no_picture alloc self prs slide clock self' slide' clock' :
  respects_liveness alloc ->
  never_reuses alloc ->
  _process_slide alloc self prs slide clock = Some (self', slide', clock') ->
  let re := right_edge_of (corner_threshold self) prs in
  let be := bottom_edge_of (corner_threshold self) prs in
  slide' = slide /\
  corner_images_removed self' = corner_images_removed self /\
  shapes_removed self' = shapes_removed self /\
  links_removed self' =
    links_removed self + n_corner_linked (target_domain self) re be slide /\
  (forall s, corner_picture re be s = true <->
     shape_type s = PICTURE /\
     exists l t, float_of_attr (left s) = Some l /\
                 float_of_attr (top s) = Some t /\
                 in_corner_region l t re be).
Proof.
  intros A N E. unfold right_edge_of, bottom_edge_of.
  destruct (_slide_size prs) as [[sw sh]|] eqn:Z.
  - destruct (process_slide_quiet alloc self prs slide clock sw sh A Z
                (or_intror N)) as (c & F).
    rewrite F in E. injection E as <- <- _. cbv zeta. simpl.
    rewrite !Nat.add_0_r.
    split; [reflexivity|]. split; [reflexivity|]. split; [reflexivity|].
    split; [reflexivity|]. intros s. apply corner_picture_region.
  - unfold _process_slide in E. rewrite Z in E. discriminate.
Qed.

Lemma two_corner_pictures_stay :
  (exists clock',
     _process_slide fresh_address Deck.remover Deck.deck [Deck.P1; Deck.P2] 0 =
     Some (bump Deck.remover 1 0 0, [Deck.P1; Deck.P2], clock')) /\
  corner_images_removed (bump Deck.remover 1 0 0) = corner_images_removed Deck.remover /\
  corner_picture (right_edge_of (corner_threshold Deck.remover) Deck.deck)
                 (bottom_edge_of (corner_threshold Deck.remover) Deck.deck)
                 Deck.P1 = true /\
  corner_picture (right_edge_of (corner_threshold Deck.remover) Deck.deck)
                 (bottom_edge_of (corner_threshold Deck.remover) Deck.deck)
                 Deck.P2 = true /\
  address_matches "gamma.app" (click_address Deck.P2) = true.
Proof.
  assert (E : _process_slide fresh_address Deck.remover Deck.deck
                [Deck.P1; Deck.P2] 0 =
              Some (bump Deck.remover 1 0 0, [Deck.P1; Deck.P2], 12))
    by (vm_compute; reflexivity).
  destruct (corner_link_removes_no_picture fresh_address Deck.remover Deck.deck
              _ _ _ _ _ fresh_address_respects_liveness
              fresh_address_never_reuses E) as (_ & C & _).
  split; [eexists; exact E|]. split; [exact C|].
  repeat split; vm_compute; reflexivity.
Defined.




(** C4 does not hold of the program.  A second call, with a new cleaner
    of the same configuration, on the presentation the first call produced
    leaves that presentation as it is, but it does not return (0, 0, 0)
    when a slide has a linked corner picture: the first call removed
    neither the picture nor its link, and the second counts the link
    again.  Stated for an allocator that gives no address twice. *)
Theorem second_clean_counts_corner_links_again alloc domain threshold prs self1 prs1 t1 :
  respects_liveness alloc ->
  never_reuses alloc ->
  well_formed prs ->
  clean_pptx_from_target_domain alloc (__init__ domain threshold) prs
    = Some (self1, prs1, t1) ->
  let n := total (n_corner_linked (Str.lower domain)
                    (right_edge_of threshold prs) (bottom_edge_of threshold prs))
                 (slides prs) in
  clean_pptx_from_target_domain alloc (__init__ domain threshold) prs1
    = Some (bump (__init__ domain threshold) n 0 0, prs1, (0, n, 0)).
Proof.
  intros A N (_ & Hl & _) E n.
  rewrite clean_quiet in E by auto.
  destruct (completes prs) eqn:C; [|discriminate].
  cbv zeta in E. injection E as _ <- _.
  rewrite clean_quiet; auto.
  - destruct (cleaned_again (target_domain (__init__ domain threshold))
                (corner_threshold (__init__ domain threshold)) prs)
      as (E1 & E2 & E3 & E4).
    change (target_domain (__init__ domain threshold)) with (Str.lower domain) in *.
    change (corner_threshold (__init__ domain threshold)) with threshold in *.
    rewrite E4, C. cbv zeta. rewrite E1, E2, E3. reflexivity.
  - unfold cleaned. cbn [slide_layouts].
    apply Forall_map_intro with (f := kept _); [|exact Hl].
    intros l. apply distinct_ids_kept.
Qed.

Lemma clean_deck_twice :
  clean_pptx_from_target_domain fresh_address Deck.remover Deck.deck
    = Some (bump Deck.remover 1 0 0, Deck.deck, (0, 1, 0)) /\
  clean_pptx_from_target_domain fresh_address Deck.remover Deck.deck
    = Some (bump Deck.remover
              (total (n_corner_linked "gamma.app"
                        (right_edge_of 0x1.6666666666666p-1%float Deck.deck)
                        (bottom_edge_of 0x1.6666666666666p-1%float Deck.deck))
                     (slides Deck.deck)) 0 0,
            Deck.deck,
            (0, total (n_corner_linked "gamma.app"
                        (right_edge_of 0x1.6666666666666p-1%float Deck.deck)
                        (bottom_edge_of 0x1.6666666666666p-1%float Deck.deck))
                      (slides Deck.deck), 0)) /\
  total (n_corner_linked "gamma.app"
           (right_edge_of 0x1.6666666666666p-1%float Deck.deck)
           (bottom_edge_of 0x1.6666666666666p-1%float Deck.deck))
        (slides Deck.deck) = 1.
Proof.
  split; [exact clean_deck|]. split; [|vm_compute; reflexivity].
  exact (second_clean_counts_corner_links_again fresh_address "gamma.app"
           0x1.6666666666666p-1%float Deck.deck _ _ _
           fresh_address_respects_liveness fresh_address_never_reuses
           deck_well_formed clean_deck).
Defined.

(** C5.  Run stripping clears the hyperlink address of every run that
    points to the target domain and counts it; the run goes away when its
    text is empty or white space, otherwise its text stays as it is; a run
    that does not point to the domain is left as it is.  The number
    returned is the number of runs that pointed to the domain, and the
    callers add it to [links_removed].  White space is that of
    [str.strip], the no-break space included. *)
Theorem strip_text_run_links_spec self s tf :
  text_frame s = Some (Some tf) ->
  let d := target_domain self in
  _strip_text_run_links self s =
    (with_text_frame s (text_frame_after d tf),
     List.length (filter (run_linked d) (flat_map runs (paragraphs tf)))) /\
  (forall r, address_matches d (run_address r) = true ->
     Str.blank (run_text r) = true -> strip_run d r = ([], 1)) /\
  (forall r, address_matches d (run_address r) = true ->
     Str.blank (run_text r) = false ->
     strip_run d r = ([ {| run_text := run_text r;
                           run_hyperlink := Some {| address := Got None |} |} ], 1)) /\
  (forall r, address_matches d (run_address r) = false ->
     strip_run d r = ([r], 0)) /\
  (forall n, links_removed (count_links self n) = links_removed self + n).
Proof.
  intros T d. repeat split.
  - rewrite strip_text_run_links_eq.
    unfold edited, linked_runs, shape_runs. now rewrite T.
  - intros r L B. rewrite strip_run_eq. unfold run_after, run_linked.
    now rewrite L, B.
  - intros r L B. rewrite strip_run_eq. unfold run_after, run_linked.
    now rewrite L, B.
  - intros r L. rewrite strip_run_eq. unfold run_after, run_linked.
    now rewrite L.
  - intros n. now rewrite count_links_bump.
Qed.

Lemma strip_caption :
  _strip_text_run_links Deck.remover Deck.caption = (Deck.caption_cleaned, 2) /\
  strip_run "gamma.app" Deck.nbsp_run = ([], 1).
Proof.
  destruct (strip_text_run_links_spec Deck.remover Deck.caption _ eq_refl)
    as (E & B & _).
  split; [exact E|]. apply B; reflexivity.
Defined.





(** C8, as amended.  The counters belong to the cleaner instance and are
    never reset: a call returns the totals the instance held when the call
    began plus the removals of this call.  On a cleaner whose counters are
    at zero, as [__init__] leaves them, the triple is what this call
    removed; the presentation produced does not depend on the counters. *)
Theorem clean_returns_running_totals alloc self prs self' prs' t :
  well_formed prs ->
  clean_pptx_from_target_domain alloc self prs = Some (self', prs', t) ->
  exists a b c,
    clean_pptx_from_target_domain alloc (fresh self) prs
      = Some (bump (fresh self) b a c, prs', (a, b, c)) /\
    t = (shapes_removed self + a, links_removed self + b,
         corner_images_removed self + c) /\
    self' = bump self b a c.
Proof.
  intros (_ & Hl & _) E.
  destruct (clean_delta alloc prs (target_domain self) (corner_threshold self) Hl)
    as [(a & b & c & p & F)|F].
  - rewrite (F self eq_refl eq_refl) in E. injection E as <- <- <-.
    exists b, a, c.
    rewrite (F (fresh self) eq_refl eq_refl).
    repeat split.
  - rewrite (F self eq_refl eq_refl) in E. discriminate.
Qed.

Lemma used_cleaner_on_badge_deck :
  exists a b c,
    clean_pptx_from_target_domain fresh_address (fresh (bump Deck.remover 1 1 0))
      Deck.badge_deck
      = Some (bump (fresh (bump Deck.remover 1 1 0)) b a c, Deck.empty_deck, (a, b, c)) /\
    (2, 2, 0) = (1 + a, 1 + b, 0 + c) /\
    bump Deck.remover 2 2 0 = bump (bump Deck.remover 1 1 0) b a c.
Proof.
  apply (clean_returns_running_totals fresh_address (bump Deck.remover 1 1 0)
           Deck.badge_deck (bump Deck.remover 2 2 0) Deck.empty_deck (2, 2, 0)
           badge_deck_well_formed).
  vm_compute. reflexivity.
Defined.

(** C8 as stated fails: the same cleaner instance, called a second time
    on the presentation it has just cleaned, removes nothing and yet
    returns (1, 1, 0), the counts of the first call; called on the
    original presentation again it removes one shape and returns
    (2, 2, 0). *)
Lemma second_call_returns_accumulated_counts :
  clean_pptx_from_target_domain fresh_address Deck.remover Deck.badge_deck
    = Some (bump Deck.remover 1 1 0, Deck.empty_deck, (1, 1, 0)) /\
  clean_pptx_from_target_domain fresh_address (bump Deck.remover 1 1 0) Deck.empty_deck
    = Some (bump Deck.remover 1 1 0, Deck.empty_deck, (1, 1, 0)) /\
  clean_pptx_from_target_domain fresh_address (bump Deck.remover 1 1 0) Deck.badge_deck
    = Some (bump Deck.remover 2 2 0, Deck.empty_deck, (2, 2, 0)).
Proof. repeat split; vm_compute; reflexivity. Qed.






(* ================================================================== *)
(** ** Further properties of the code *)

(** *** [_remove_shapes_by_id] goes by the ids of new proxies *)

(** X1.  [_remove_shapes_by_id] builds new proxies and goes by their ids:
    it removes the shapes whose new proxy has an id of the set, and
    returns their number.  Ids taken from proxies of an earlier
    enumeration name no shape: when no address is given twice, nothing is
    removed and 0 is returned. *)
Theorem remove_shapes_by_id_goes_by_new_proxies alloc held slide ids clock :
  distinct_ids slide ->
  let snap := snapshot alloc held slide clock in
  let r := _remove_shapes_by_id alloc held slide ids clock in
  r = (map snd (filter (fun p => negb (id_in ids p)) snap),
       List.length (filter (id_in ids) snap)) /\
  List.length slide = List.length (fst r) + snd r /\
  (never_reuses alloc ->
   forall held' prev clock0, clock0 + List.length slide <= clock ->
     _remove_shapes_by_id alloc held slide
       (map fst (iterate alloc held' prev slide clock0)) clock = (slide, 0)).
Proof.
  intros D snap r. unfold r, snap.
  split; [now apply remove_shapes_by_id_eq|].
  split; [now apply remove_shapes_by_id_length|].
  intros N held' prev clock0 Hc.
  apply (removal_misses alloc held slide _ clock0 clock N).
  intros i Hi. apply iterate_allocated in Hi as (live & t & Ht & E).
  exists live, t. split; [lia|exact E].
Qed.

Lemma stored_ids_remove_nothing :
  _remove_shapes_by_id fresh_address [] [Deck.P1; Deck.P2]
    (map fst (iterate fresh_address [] [] [Deck.P1; Deck.P2] 0)) 2
  = ([Deck.P1; Deck.P2], 0).
Proof.
  assert (D : distinct_ids [Deck.P1; Deck.P2]) by distinct.
  apply (proj2 (proj2 (remove_shapes_by_id_goes_by_new_proxies fresh_address []
                         [Deck.P1; Deck.P2] [] 2 D))
           fresh_address_never_reuses [] [] 0).
  simpl. lia.
Defined.

(** *** When the call raises *)

(** X2.  When the presentation has a slide and its width or its height
    cannot be turned into a float, being unset or too large, the public
    method raises: the slide size is read for the first slide and nothing
    catches the exception. *)
Theorem clean_raises_without_slide_size alloc self prs :
  slides prs <> [] ->
  float_of_attr (slide_width prs) = None \/
  float_of_attr (slide_height prs) = None ->
  clean_pptx_from_target_domain alloc self prs = None.
Proof.
  intros Hs H.
  assert (Z : _slide_size prs = None).
  { unfold _slide_size. destruct H as [-> | ->]; [reflexivity|].
    now destruct (float_of_attr (slide_width prs)). }
  unfold clean_pptx_from_target_domain.
  destruct (process_masters self prs) as [self1 m].
  destruct (process_trees self1 (slide_layouts prs)) as [self2 l].
  destruct (slides prs) as [|slide rest]; [now destruct Hs|].
  now rewrite process_slides_raises.
Qed.

Lemma clean_unsized_deck_raises :
  clean_pptx_from_target_domain fresh_address Deck.remover Deck.unsized_deck = None.
Proof.
  apply (clean_raises_without_slide_size fresh_address Deck.remover
           Deck.unsized_deck).
  - discriminate.
  - left. reflexivity.
Defined.

(** *** Slides *)

(** X3.  On a slide, steps 2 and 3 never reach a shape.  The test of line
    84 looks for the id of a proxy of the snapshot among the ids of
    proxies built while the snapshot is alive, and never finds it; so the
    loop skips every shape, no id is collected, no run is stripped, and
    the link sweep returns the cleaner and the slide as they were. *)
Theorem link_sweep_never_runs alloc held self slide clock :
  respects_liveness alloc ->
  let snap := snapshot alloc held slide clock in
  (forall p live clock1, In p snap ->
     existsb (Nat.eqb (fst p))
             (map fst (iterate alloc (map fst snap) [] live clock1)) = false) /\
  fst (link_sweep alloc held self slide clock) = (self, slide).
Proof.
  intros A snap. split.
  - intros p live clock1 Hp.
    destruct (existsb _ _) eqn:E; [|reflexivity].
    exfalso. apply existsb_exists in E as (i & Hi & Ei).
    apply Nat.eqb_eq in Ei. subst i.
    apply (iterate_not_held alloc _ live A [] clock1 _ Hi). now apply in_map.
  - now rewrite link_sweep_skips.
Qed.

Lemma badge_and_caption_stay_on_the_slide :
  fst (link_sweep fresh_address [] Deck.remover [Deck.badge; Deck.caption] 0)
  = (Deck.remover, [Deck.badge; Deck.caption]).
Proof.
  exact (proj2 (link_sweep_never_runs fresh_address [] Deck.remover
                  [Deck.badge; Deck.caption] 0
                  fresh_address_respects_liveness)).
Defined.

(** X4.  A slide none of whose corner pictures is linked is left as it
    is, and nothing is counted, whatever else the slide holds: linked
    shapes outside the corner and linked runs stay. *)
Theorem process_slide_without_corner_link alloc self prs slide clock sw sh :
  respects_liveness alloc ->
  _slide_size prs = Some (sw, sh) ->
  corner_fires (target_domain self)
    (PrimFloat.mul sw (corner_threshold self))
    (PrimFloat.mul sh (corner_threshold self)) slide = false ->
  exists clock',
    _process_slide alloc self prs slide clock = Some (self, slide, clock').
Proof.
  intros A Z C.
  destruct (process_slide_quiet alloc self prs slide clock sw sh A Z
              (or_introl C)) as (c & F).
  rewrite (corner_fires_none _ _ _ _ C), bump_zero in F. eauto.
Qed.

Lemma linked_badge_stays_on_the_slide :
  exists clock',
    _process_slide fresh_address Deck.remover Deck.deck
      [Deck.P1; Deck.photo; Deck.badge] 0
    = Some (Deck.remover, [Deck.P1; Deck.photo; Deck.badge], clock').
Proof.
  apply (process_slide_without_corner_link fresh_address Deck.remover Deck.deck
           _ 0 9144000%float 6858000%float fresh_address_respects_liveness);
    vm_compute; reflexivity.
Defined.

(** *** Counting what leaves the presentation *)

(** X5.  Every top-level shape that the call deletes is counted once, in
    [shapes_removed] or in [corner_images_removed]: the number of
    top-level shapes the presentation loses is what the call adds to the
    two counters together. *)
Theorem clean_counts_every_deleted_shape alloc self prs self' prs' t :
  respects_liveness alloc ->
  well_formed prs ->
  clean_pptx_from_target_domain alloc self prs = Some (self', prs', t) ->
  n_top_level prs' + shapes_removed self' + corner_images_removed self'
  = n_top_level prs + shapes_removed self + corner_images_removed self.
Proof.
  intros A W E.
  destruct (clean_alive alloc self prs self' prs' t A W E)
    as (c & -> & _ & L & _).
  rewrite L. simpl. lia.
Qed.

Lemma clean_counts_every_deleted_shape_deck :
  n_top_level Deck.layout_deck_cleaned + 1 + 0 = n_top_level Deck.layout_deck + 0 + 0.
Proof.
  apply (clean_counts_every_deleted_shape fresh_address Deck.remover
           Deck.layout_deck (bump Deck.remover 3 1 0) Deck.layout_deck_cleaned
           (1, 3, 0) fresh_address_respects_liveness layout_deck_well_formed).
  vm_compute. reflexivity.
Defined.

(** *** Run stripping *)

(** X9.  Stripping is idempotent: stripping the links of a shape that has
    just been stripped changes nothing and returns 0. *)
Theorem strip_text_run_links_idempotent self s :
  _strip_text_run_links self (fst (_strip_text_run_links self s))
  = (fst (_strip_text_run_links self s), 0).
Proof.
  rewrite !strip_text_run_links_eq. simpl. f_equal.
  - apply edited_unchanged. apply edited_runs_unlinked.
  - apply linked_runs_none. apply edited_runs_unlinked.
Qed.

Lemma run_after_texts d r :
  map run_text (run_after d r) = if run_stays d r then [run_text r] else [].
Proof.
  unfold run_after, run_stays.
  destruct (run_linked d r); [|reflexivity].
  now destruct (Str.blank (run_text r)).
Qed.

Lemma runs_after_texts d rs :
  map run_text (flat_map (run_after d) rs)
  = map run_text (filter (run_stays d) rs).
Proof.
  induction rs as [|r rs IH]; [reflexivity|].
  simpl. rewrite map_app, run_after_texts, IH.
  now destruct (run_stays d r).
Qed.

(** X10.  Stripping never rewrites text and never reorders: paragraph by
    paragraph, the texts of the runs afterwards are the texts of the runs
    before, in order, without the runs that were both linked and blank,
    blank as [str.strip] has it.  A paragraph stays in place even when all
    its runs go. *)
Theorem strip_keeps_texts d tf :
  Forall2 (fun p p' =>
             map run_text (runs p') = map run_text (filter (run_stays d) (runs p)))
          (paragraphs tf) (paragraphs (fst (strip_text_frame d tf))) /\
  List.length (paragraphs (fst (strip_text_frame d tf)))
  = List.length (paragraphs tf).
Proof.
  unfold strip_text_frame. rewrite strip_paragraphs_eq. simpl. split.
  - induction (paragraphs tf) as [|p ps IH]; simpl; constructor; auto.
    simpl. apply runs_after_texts.
  - apply length_map.
Qed.

(** *** What the passes keep *)

(** X11.  The passes never create, reorder or move a shape.  What a
    layout holds after its pass is a selection of the shapes it held, in
    their order, each with its text frame stripped; a shape that stays
    keeps its id, type, position, click action and nested shapes.  What a
    slide holds afterwards are shapes it held, as they were. *)
Theorem passes_select_and_edit self obj :
  distinct_ids obj ->
  let edit := fun s => fst (_strip_text_run_links self s) in
  (exists keep, snd (_process_shape_tree self obj) = map edit (filter keep obj)) /\
  (forall alloc prs clock self' slide' clock',
     respects_liveness alloc ->
     _process_slide alloc self prs obj clock = Some (self', slide', clock') ->
     incl slide' obj /\ List.length slide' <= List.length obj) /\
  (forall s, shape_id (edit s) = shape_id s /\
             shape_type (edit s) = shape_type s /\
             left (edit s) = left s /\ top (edit s) = top s /\
             click_action (edit s) = click_action s /\
             group_shapes (edit s) = group_shapes s).
Proof.
  intros D edit.
  assert (Ee : forall l, map edit l = map (edited (target_domain self)) l).
  { intros l. apply map_ext. intros s. unfold edit.
    now rewrite strip_text_run_links_eq. }
  split; [|split].
  - exists (fun s => negb (linked (target_domain self) s)).
    rewrite process_shape_tree_eq by exact D. simpl. now rewrite Ee.
  - intros alloc prs clock self' slide' clock' A E.
    destruct (_slide_size prs) as [[sw sh]|] eqn:Z.
    + destruct (process_slide_alive alloc self prs obj clock sw sh A D Z)
        as (c & s1 & c1 & F & L & I).
      rewrite F in E. injection E as _ <- _. split; [exact I|lia].
    + unfold _process_slide in E. rewrite Z in E. discriminate.
  - intros s. unfold edit. rewrite strip_text_run_links_eq. simpl.
    unfold edited. destruct (text_frame s) as [[tf|]|]; repeat split.
Qed.

Lemma layout_is_a_selection :
  exists keep,
    snd (_process_shape_tree Deck.remover [Deck.group; Deck.badge; Deck.caption])
    = map (fun s => fst (_strip_text_run_links Deck.remover s))
          (filter keep [Deck.group; Deck.badge; Deck.caption]).
Proof.
  assert (D : distinct_ids [Deck.group; Deck.badge; Deck.caption]) by distinct.
  exact (proj1 (passes_select_and_edit Deck.remover _ D)).
Defined.

(** *** The driver's figures *)

(** X12.  The total the driver prints is the sum of the three counts of
    one call on a new cleaner.  Shapes removed and corner pictures removed
    together are the top-level shapes the presentation lost; the links
    count is never below the shapes count, since every shape removed for
    its link is counted as a link too: the total counts those shapes
    twice. *)
Theorem driver_total alloc prs prs' shapes links corner total_removed :
  respects_liveness alloc ->
  well_formed prs ->
  remove_pptx_watermark alloc prs
    = Some (prs', (shapes, links, corner, total_removed)) ->
  total_removed = shapes + links + corner /\
  n_top_level prs' + shapes + corner = n_top_level prs /\
  shapes <= links.
Proof.
  intros A W E. unfold remove_pptx_watermark in E. cbv zeta in E.
  remember (__init__ _ _) as r eqn:R in E.
  assert (Hz : shapes_removed r = 0 /\ links_removed r = 0 /\
               corner_images_removed r = 0) by (subst r; repeat split).
  clear R. destruct Hz as (Z1 & Z2 & Z3).
  destruct (clean_pptx_from_target_domain alloc r prs)
    as [[[self' p] [[a b] c]]|] eqn:F; [|discriminate].
  injection E as <- <- <- <- <-.
  destruct (clean_alive alloc r prs self' p _ A W F)
    as (x & -> & T & L & _).
  rewrite counts_of_bump, Z1, Z2, Z3 in T. cbn [Nat.add] in T.
  injection T as -> -> ->.
  split; [reflexivity|]. split; [lia|].
  unfold links_counted, shapes_counted.
  assert (M := total_le (n_linked (target_domain r))
                 (fun o => n_linked (target_domain r) o
                           + n_stripped (target_domain r) o)
                 (slide_layouts prs)).
  assert (M' : forall o, n_linked (target_domain r) o
                         <= n_linked (target_domain r) o
                            + n_stripped (target_domain r) o) by (intros; lia).
  specialize (M M'). lia.
Qed.

Lemma driver_total_deck :
  1 = 0 + 1 + 0 /\
  n_top_level Deck.deck + 0 + 0 = n_top_level Deck.deck /\
  0 <= 1.
Proof.
  apply (driver_total fresh_address Deck.deck Deck.deck 0 1 0 1
           fresh_address_respects_liveness deck_well_formed).
  vm_compute. reflexivity.
Defined.

(** *** An empty target domain *)

Lemma empty_domain_matches a :
  address_matches EmptyString a =
  match a with Some s => negb (Str.is_empty s) | None => false end.
Proof.
  destruct a as [s|]; [|reflexivity].
  unfold address_matches.
  replace (Str.contains EmptyString (Str.lower s)) with true;
    [apply andb_true_r|].
  now destruct (Str.lower s).
Qed.

(** X13.  A cleaner configured with the empty string as target domain
    matches every address that is not empty: the link test answers [True]
    for every shape that has a click-hyperlink address, and run stripping
    leaves no run with an address. *)
Theorem empty_domain_matches_every_address self s :
  target_domain self = EmptyString ->
  (snd (_shape_has_target_link self s) = true <->
   exists a, click_address s = Some a /\ a <> EmptyString) /\
  (forall r, In r (shape_runs (fst (_strip_text_run_links self s))) ->
     run_address r = None \/ run_address r = Some EmptyString).
Proof.
  intros Z. split.
  - rewrite has_target_link_eq, Z. simpl. unfold linked.
    rewrite empty_domain_matches.
    destruct (click_address s) as [a|].
    + destruct a; simpl.
      * split; [discriminate|]. intros (a & [= <-] & H). now destruct H.
      * split; [|reflexivity]. intros _. eexists. split; [reflexivity|discriminate].
    + split; [discriminate|]. intros (a & H & _). discriminate.
  - intros r Hr. rewrite strip_text_run_links_eq, Z in Hr. simpl in Hr.
    apply edited_runs_unlinked in Hr. unfold run_linked in Hr.
    rewrite empty_domain_matches in Hr.
    destruct (run_address r) as [[|c a]|]; auto. discriminate.
Qed.

Lemma empty_domain_takes_foreign_links :
  snd (_shape_has_target_link (__init__ "" 0x1.6666666666666p-1%float)
         (Shape 3 PICTURE (Some 1000000%Z) (Some 1000000%Z)
                (Deck.link "https://example.org") None [])) = true.
Proof.
  apply (proj1 (empty_domain_matches_every_address
                  (__init__ "" 0x1.6666666666666p-1%float) _ eq_refl)).
  eexists. split; [reflexivity|discriminate].
Defined.

(** *** What the call leaves alone *)

Lemma process_trees_length objs : forall self,
  List.length (snd (process_trees self objs)) = List.length objs.
Proof.
  induction objs as [|obj rest IH]; intros self; [reflexivity|].
  simpl. destruct (_process_shape_tree self obj) as [self1 obj'].
  specialize (IH self1). destruct (process_trees self1 rest) as [self2 rest'].
  simpl in *. now rewrite IH.
Qed.

Lemma process_slides_length alloc prs todo : forall self clock self' todo',
  process_slides alloc self prs todo clock = Some (self', todo') ->
  List.length todo' = List.length todo.
Proof.
  induction todo as [|slide rest IH]; intros self clock self' todo' E.
  - simpl in E. now injection E as _ <-.
  - cbn [process_slides] in E.
    destruct (_process_slide alloc self prs slide clock)
      as [[[self1 slide'] clock1]|]; [|discriminate].
    destruct (process_slides alloc self1 prs rest clock1)
      as [[self2 rest']|] eqn:F; [|discriminate].
    injection E as _ <-. simpl. f_equal. exact (IH _ _ _ _ F).
Qed.

(** X15.  Whatever it removes, the call leaves the slide size and the
    masters as they are, adds or drops no layout and no slide, and
    returns the three counters of the cleaner as the call leaves them:
    shapes, links, corner pictures, in this order. *)
Theorem clean_frame alloc self prs self' prs' t :
  clean_pptx_from_target_domain alloc self prs = Some (self', prs', t) ->
  slide_width prs' = slide_width prs /\
  slide_height prs' = slide_height prs /\
  slide_masters prs' = slide_masters prs /\
  List.length (slide_layouts prs') = List.length (slide_layouts prs) /\
  List.length (slides prs') = List.length (slides prs) /\
  t = (shapes_removed self', links_removed self', corner_images_removed self').
Proof.
  unfold clean_pptx_from_target_domain, process_masters, part_slide_masters.
  intros E.
  assert (L := process_trees_length (slide_layouts prs) self).
  destruct (process_trees self (slide_layouts prs)) as [self2 layouts'].
  destruct (process_slides alloc self2 prs (slides prs) 0)
    as [[self3 slides']|] eqn:F; [|discriminate].
  injection E as <- <- <-. simpl in *.
  repeat split; auto.
  exact (process_slides_length _ _ _ _ _ _ _ F).
Qed.

Lemma clean_frame_deck :
  slide_masters Deck.deck = slide_masters Deck.deck /\
  (0, 1, 0) = (shapes_removed (bump Deck.remover 1 0 0),
               links_removed (bump Deck.remover 1 0 0),
               corner_images_removed (bump Deck.remover 1 0 0)).
Proof.
  destruct (clean_frame fresh_address Deck.remover Deck.deck _ _ _ clean_deck)
    as (_ & _ & M & _ & _ & T).
  split; [exact M|exact T].
Defined.

(** *** Letter case *)

Lemma lower_char_idempotent c :
  Str.lower_char (Str.lower_char c) = Str.lower_char c.
Proof. destruct c as [[] [] [] [] [] [] [] []]; reflexivity. Qed.

Lemma lower_idempotent s : Str.lower (Str.lower s) = Str.lower s.
Proof.
  induction s as [|c s IH]; [reflexivity|].
  simpl. now rewrite lower_char_idempotent, IH.
Qed.

Lemma lower_is_empty s : Str.is_empty (Str.lower s) = Str.is_empty s.
Proof. now destruct s. Qed.

(** X16.  Matching ignores letter case on both sides.  A cleaner built
    with a domain is the cleaner built with the lower-case form of that
    domain, and the link test gives the same answer, with the same count,
    for two shapes whose click-hyperlink addresses differ in letter case
    only. *)
Theorem matching_ignores_letter_case domain threshold :
  __init__ (Str.lower domain) threshold = __init__ domain threshold /\
  (forall a, address_matches (Str.lower domain) (Some (Str.lower a))
             = address_matches (Str.lower domain) (Some a)) /\
  (forall self s s',
     match click_address s, click_address s' with
     | Some a, Some a' => Str.lower a = Str.lower a'
     | _, _ => False
     end ->
     snd (_shape_has_target_link self s) = snd (_shape_has_target_link self s') /\
     links_removed (fst (_shape_has_target_link self s))
     = links_removed (fst (_shape_has_target_link self s'))).
Proof.
  split; [|split].
  - unfold __init__. now rewrite lower_idempotent.
  - intros a. unfold address_matches.
    now rewrite lower_idempotent, lower_is_empty.
  - intros self s s' H. rewrite !has_target_link_eq. simpl. unfold linked.
    destruct (click_address s) as [a|]; [|destruct H].
    destruct (click_address s') as [a'|]; [|destruct H].
    assert (E : address_matches (target_domain self) (Some a)
                = address_matches (target_domain self) (Some a')).
    { unfold address_matches.
      rewrite <- (lower_is_empty a), <- (lower_is_empty a'). now rewrite H. }
    rewrite E. split; [reflexivity|].
    now destruct (address_matches (target_domain self) (Some a')).
Qed.

(** *** Two shapes on a slide *)

(** X6.  On a slide of two shapes the corner sweep never removes both,
    whatever addresses the proxies are given: the proxy that the loop
    variable of the scan still holds keeps its address, so at most one
    proxy of the new enumeration can have a stored id.  The example of
    the specification, two corner pictures of which one is linked, never
    gives 2. *)
Theorem corner_sweep_never_takes_both alloc self prs a b clock self' slide' clock' :
  respects_liveness alloc ->
  distinct_ids [a; b] ->
  _process_slide alloc self prs [a; b] clock = Some (self', slide', clock') ->
  corner_images_removed self' <= corner_images_removed self + 1 /\
  1 <= List.length slide' /\
  shapes_removed self' = shapes_removed self.
Proof.
  intros A D E. unfold _process_slide in E.
  destruct (_slide_size prs) as [[sw sh]|]; [|discriminate].
  rewrite corner_sweep_eq in E. cbv zeta in E.
  set (re := PrimFloat.mul sw (corner_threshold self)) in E.
  set (be := PrimFloat.mul sh (corner_threshold self)) in E.
  destruct (corner_fires (target_domain self) re be [a; b]).
  - rewrite remove_shapes_by_id_eq in E by exact D.
    rewrite (link_sweep_skips alloc _ _ _ _ A) in E.
    injection E as <- <- _.
    set (ids := corner_ids re be (iterate alloc [] [] [a; b] clock) (empty_set nat)).
    assert (I : forall i, In i ids ->
                i = alloc [] clock \/ i = alloc [alloc [] clock] (S clock)).
    { intros i Hi. apply corner_ids_In in Hi as [[]|Hi].
      simpl in Hi. intuition congruence. }
    cbn [snapshot iterate last_id fst List.length app] in *.
    set (i1 := alloc [] clock) in *.
    set (i2 := alloc [i1] (S clock)) in *.
    set (j1 := alloc [i2] (clock + 2)) in *.
    set (j2 := alloc [j1; i2] (S (clock + 2))) in *.
    assert (H1 : ~ In j1 [i2]) by apply A.
    assert (H2 : ~ In j2 [j1; i2]) by apply A.
    assert (B : id_in ids (j1, a) && id_in ids (j2, b) = false).
    { destruct (id_in ids (j1, a)) eqn:E1; [|reflexivity].
      destruct (id_in ids (j2, b)) eqn:E2; [|reflexivity].
      exfalso. apply id_in_In in E1, E2. cbn [fst] in E1, E2.
      apply I in E1, E2. simpl in H1, H2. intuition congruence. }
    cbn [filter map bump corner_images_removed shapes_removed]. fold ids.
    destruct (id_in ids (j1, a)), (id_in ids (j2, b));
      try discriminate; simpl; repeat split; lia.
  - rewrite (link_sweep_skips alloc _ _ _ _ A) in E.
    injection E as <- <- _. simpl. repeat split; lia.
Qed.

Lemma example_never_gives_two :
  corner_images_removed (bump Deck.remover 1 0 0)
    <= corner_images_removed Deck.remover + 1 /\
  1 <= List.length [Deck.P1; Deck.P2].
Proof.
  assert (D : distinct_ids [Deck.P1; Deck.P2]) by distinct.
  assert (E : _process_slide fresh_address Deck.remover Deck.deck
                [Deck.P1; Deck.P2] 0 =
              Some (bump Deck.remover 1 0 0, [Deck.P1; Deck.P2], 12))
    by (vm_compute; reflexivity).
  destruct (corner_sweep_never_takes_both fresh_address Deck.remover Deck.deck
              _ _ _ _ _ _ fresh_address_respects_liveness D E) as (C & L & _).
  split; [exact C|exact L].
Defined.
